(** * Contacts book: a shallow embedding of [contacts_book_classes.py]

    The development follows the Python module top to bottom: the string
    methods the module calls, [repr] and [int], [difflib.SequenceMatcher],
    the [datetime] calls, the field classes, [Record], [AddressBook], the
    command handlers, the [COMMANDS] table, [command_parser], the routing
    done by one iteration of [main] and the call it makes.

    Conventions.
    - A Python [str] is a Rocq [string]; the character with code [n] is the
      Unicode code point U+00[n], so the strings covered are those of code
      points below 256, and every character predicate below is CPython's
      restricted to that range.
    - A Python [int] is a [Z].
    - A call that may raise returns a [res]; a handler that reads or updates
      the global [ADDRESSBOOK] takes the book and returns the new one.
    - [datetime.now().date()] is an explicit argument [today]. *)

From Stdlib Require Import String Ascii List ZArith NArith QArith Bool Lia.
From Stdlib Require Import Numbers.DecimalString.
Import ListNotations.

Local Open Scope string_scope.
Local Open Scope Z_scope.

(** ** Python strings *)

Module Str.

Definition code (c : ascii) : N := N_of_ascii c.

Definition between (lo hi : N) (c : ascii) : bool :=
  ((lo <=? code c) && (code c <=? hi))%N.

(** [str.isspace], [str.isdecimal], [str.isdigit] and [str.isnumeric] on one
    character: TAB..CR, FS..US, SPACE, NEL and NBSP are white space; the
    superscripts two, three and one are digits that are not decimal; the
    vulgar fractions U+00BC..U+00BE are numeric and not digits. *)
Definition char_isspace (c : ascii) : bool :=
  between 9 13 c || between 28 32 c || between 133 133 c || between 160 160 c.

Definition char_isdecimal (c : ascii) : bool := between 48 57 c.

Definition char_isdigit (c : ascii) : bool :=
  char_isdecimal c || between 178 179 c || between 185 185 c.

Definition char_isnumeric (c : ascii) : bool :=
  char_isdigit c || between 188 190 c.

(** Lower-case mapping: A..Z and the capital letters U+00C0..U+00DE, the
    multiplication sign U+00D7 excepted, move up by 32. *)
Definition char_lower (c : ascii) : ascii :=
  if between 65 90 c || (between 192 222 c && negb (between 215 215 c))
  then ascii_of_N (code c + 32) else c.

Fixpoint all (p : ascii -> bool) (s : string) : bool :=
  match s with
  | EmptyString => true
  | String c s' => p c && all p s'
  end.

(** [s.isnumeric()] and [s.isdigit()]: false on the empty string. *)
Definition isnumeric (s : string) : bool :=
  match s with
  | EmptyString => false
  | _ => all char_isnumeric s
  end.

Definition isdigit (s : string) : bool :=
  match s with
  | EmptyString => false
  | _ => all char_isdigit s
  end.

Fixpoint lower (s : string) : string :=
  match s with
  | EmptyString => EmptyString
  | String c s' => String (char_lower c) (lower s')
  end.

Definition len (s : string) : Z := Z.of_nat (String.length s).

(** [s.startswith(p)] *)
Fixpoint startswith (s p : string) : bool :=
  match p with
  | EmptyString => true
  | String c p' =>
      match s with
      | EmptyString => false
      | String d s' => Ascii.eqb d c && startswith s' p'
      end
  end.

(** [needle in hay] *)
Fixpoint contains (needle hay : string) : bool :=
  startswith hay needle ||
  match hay with
  | EmptyString => false
  | String _ hay' => contains needle hay'
  end.

(** [s.replace(old, new)]: every occurrence of [old], found left to right
    without overlap, becomes [new].  [skip] counts the characters of an
    occurrence that are still to be passed over. *)
Fixpoint replace_from (skip : nat) (s old new : string) : string :=
  match s with
  | EmptyString => EmptyString
  | String c s' =>
      match skip with
      | S k => replace_from k s' old new
      | O =>
          if startswith s old
          then new ++ replace_from (String.length old - 1) s' old new
          else String c (replace_from 0 s' old new)
      end
  end.

Fixpoint interleave (s new : string) : string :=
  match s with
  | EmptyString => new
  | String c s' => new ++ String c (interleave s' new)
  end.

Definition replace (s old new : string) : string :=
  match old with
  | EmptyString => interleave s new
  | _ => replace_from 0 s old new
  end.

(** [s.strip()] *)
Fixpoint lstrip (s : string) : string :=
  match s with
  | EmptyString => EmptyString
  | String c s' => if char_isspace c then lstrip s' else s
  end.

Fixpoint rstrip (s : string) : string :=
  match s with
  | EmptyString => EmptyString
  | String c s' =>
      match rstrip s' with
      | EmptyString => if char_isspace c then EmptyString else String c EmptyString
      | r => String c r
      end
  end.

Definition strip (s : string) : string := rstrip (lstrip s).

(** [s.split(sep)] for a non-empty [sep]: cut at every occurrence of [sep],
    empty pieces kept.  [cur] is the piece being read. *)
Fixpoint split_from (skip : nat) (s sep cur : string) : list string :=
  match s with
  | EmptyString => [cur]
  | String c s' =>
      match skip with
      | S k => split_from k s' sep cur
      | O =>
          if startswith s sep
          then cur :: split_from (String.length sep - 1) s' sep EmptyString
          else split_from 0 s' sep (cur ++ String c EmptyString)
      end
  end.

Definition split (s sep : string) : list string := split_from 0 s sep EmptyString.

(** [sep.join(pieces)] *)
Definition join (sep : string) (pieces : list string) : string :=
  String.concat sep pieces.

(** [str(n)] for an [int]. *)
Definition of_int (n : Z) : string := NilZero.string_of_int (Z.to_int n).

(** [s[n:]] *)
Fixpoint drop (n : nat) (s : string) : string :=
  match n, s with
  | S k, String _ s' => drop k s'
  | _, _ => s
  end.

Definition newline : string := String (ascii_of_N 10) EmptyString.

(** [str.isalnum] on one character: the digits, the ASCII letters, the
    ordinal indicators, the superscript digits, the micro sign, the vulgar
    fractions and the letters U+00C0..U+00FF, the signs U+00D7 and U+00F7
    excepted. *)
Definition char_isalnum (c : ascii) : bool :=
  between 48 57 c || between 65 90 c || between 97 122 c
  || between 170 170 c || between 178 179 c || between 181 181 c
  || between 185 186 c || between 188 190 c
  || between 192 214 c || between 216 246 c || between 248 255 c.

(** The one-character string of a double quote. *)
Definition dquote : string := String (ascii_of_N 34) EmptyString.

End Str.

(** ** Exceptions and results *)

(** The exception classes the module raises or catches.  [ValueError]
    carries [exception.args]; [EOFError] is what [input] raises at the end of
    the console input. *)
Inductive exn : Type :=
| IndexError
| ValueError (args : list string)
| KeyError
| TypeError
| EOFError.

Inductive res (A : Type) : Type :=
| Ret (a : A)
| Raise (e : exn).

Arguments Ret {A} a.
Arguments Raise {A} e.

Definition bind {A B : Type} (m : res A) (k : A -> res B) : res B :=
  match m with
  | Ret a => k a
  | Raise e => Raise e
  end.

Notation "x <- m ;; k" := (bind m (fun x => k))
  (at level 61, m at next level, right associativity).

(** [args[i]] on a tuple. *)
Definition item {A : Type} (args : list A) (i : nat) : res A :=
  match nth_error args i with
  | Some a => Ret a
  | None => Raise IndexError
  end.

(** ** [repr] and [int] on a string *)

Module builtins.

(** [str.isprintable] on one character: the controls U+0000..U+001F and
    U+007F..U+00A0 and the soft hyphen U+00AD are not printable. *)
Definition char_isprintable (c : ascii) : bool :=
  negb (Str.between 0 31 c || Str.between 127 160 c || Str.between 173 173 c).

Definition hex_digit (n : N) : ascii :=
  if (n <? 10)%N then ascii_of_N (48 + n) else ascii_of_N (87 + n).

(** [\xhh] *)
Definition hex_escape (c : ascii) : string :=
  "\x" ++ String (hex_digit (Str.code c / 16)) (String (hex_digit (Str.code c mod 16)) "").

Definition has_char (c : ascii) (s : string) : bool :=
  negb (Str.all (fun d => negb (Ascii.eqb d c)) s).

Definition squote : ascii := ascii_of_N 39.
Definition dquote : ascii := ascii_of_N 34.
Definition backslash : ascii := ascii_of_N 92.

(** The quote [repr] puts around the text: the double quote when the text
    has single quotes and no double quote, the single quote otherwise. *)
Definition repr_quote (s : string) : ascii :=
  if has_char squote s && negb (has_char dquote s) then dquote else squote.

Definition repr_char (quote c : ascii) : string :=
  if Ascii.eqb c quote || Ascii.eqb c backslash then String backslash (String c "")
  else if Str.between 9 9 c then "\t"
  else if Str.between 10 10 c then "\n"
  else if Str.between 13 13 c then "\r"
  else if char_isprintable c then String c ""
  else hex_escape c.

Fixpoint repr_body (quote : ascii) (s : string) : string :=
  match s with
  | EmptyString => EmptyString
  | String c s' => repr_char quote c ++ repr_body quote s'
  end.

(** [repr(s)] *)
Definition repr (s : string) : string :=
  let quote := repr_quote s in
  String quote (repr_body quote s ++ String quote "").

(** [s[:n]] *)
Fixpoint take (n : nat) (s : string) : string :=
  match n, s with
  | S k, String c s' => String c (take k s')
  | _, _ => EmptyString
  end.

(** The two messages of [int]: the literal is shown by its [repr], cut at
    200 characters. *)
Definition invalid_literal (s : string) : string :=
  "invalid literal for int() with base 10: " ++ take 200 (repr s).

Definition exceeds_the_limit (digits : Z) : string :=
  "Exceeds the limit (4300 digits) for integer string conversion: value has "
  ++ Str.of_int digits ++ " digits; use sys.set_int_max_str_digits() to increase the limit".

(** The white space [int] passes over at both ends: TAB..CR and SPACE, and
    NEL and NBSP, which are turned into spaces first. *)
Definition int_space (c : ascii) : bool :=
  Str.between 9 13 c || Str.between 32 32 c || Str.between 133 133 c
  || Str.between 160 160 c.

Fixpoint skip_spaces (s : string) : string :=
  match s with
  | String c s' => if int_space c then skip_spaces s' else s
  | EmptyString => EmptyString
  end.

(** The scan of the digits: [prev] tells whether the character before was an
    underscore, [digits] counts the digits read and [value] is their number.
    Two underscores in a row stop the scan with [None]. *)
Fixpoint scan_digits (s : string) (prev : bool) (digits value : Z)
  : option (bool * Z * Z * string) :=
  match s with
  | String c s' =>
      if Str.char_isdecimal c
      then scan_digits s' false (digits + 1) (10 * value + (Z.of_N (Str.code c) - 48))
      else if Str.between 95 95 c
      then if prev then None else scan_digits s' true digits value
      else Some (prev, digits, value, s)
  | EmptyString => Some (prev, digits, value, EmptyString)
  end.

(** [int(s)] for a string, in base 10, as CPython 3.11 reads it with the
    limit of 4300 digits it starts with. *)
Definition int (s : string) : res Z :=
  let s1 := skip_spaces s in
  let '(sign, s2) :=
    match s1 with
    | String c s' =>
        if Str.between 43 43 c then (1, s')
        else if Str.between 45 45 c then (-1, s')
        else (1, s1)
    | EmptyString => (1, s1)
    end in
  match s2 with
  | String c _ =>
      if Str.between 95 95 c then Raise (ValueError [invalid_literal s])
      else
        match scan_digits s2 false 0 0 with
        | None => Raise (ValueError [invalid_literal s])
        | Some (prev, digits, value, rest) =>
            if prev then Raise (ValueError [invalid_literal s])
            else if digits >? 4300 then Raise (ValueError [exceeds_the_limit digits])
            else if digits =? 0 then Raise (ValueError [invalid_literal s])
            else
              match skip_spaces rest with
              | EmptyString => Ret (sign * value)
              | _ => Raise (ValueError [invalid_literal s])
              end
        end
  | EmptyString => Raise (ValueError [invalid_literal s])
  end.

End builtins.

(** ** [difflib.SequenceMatcher(None, a, b)]

    [isjunk] is [None], so [bjunk] is empty; [autojunk] keeps its default
    [True].  Indices are Python ints.  [ratio] is the exact quotient
    [2*matches/length]; CPython rounds that quotient to a double, which keeps
    the order and the equality of two such quotients as long as the two total
    lengths multiply to less than 2^52. *)

Module difflib.

Definition block : Type := (Z * Z * Z)%type.
Definition span : Type := (Z * Z * Z * Z)%type.

Definition elt (s : list ascii) (i : Z) : ascii := nth (Z.to_nat i) s Ascii.zero.

Fixpoint indices_of (x : ascii) (b : list ascii) (j : Z) : list Z :=
  match b with
  | [] => []
  | y :: b' =>
      if Ascii.eqb y x then j :: indices_of x b' (j + 1) else indices_of x b' (j + 1)
  end.

(** [b2j.get(x, [])] after [__chain_b]: the positions of [x] in [b], unless
    [b] has 200 elements or more and [x] occupies more than [n // 100 + 1] of
    them, in which case the entry was purged. *)
Definition b2j_get (b : list ascii) (x : ascii) : list Z :=
  let idxs := indices_of x b 0 in
  let n := Z.of_nat (List.length b) in
  if (200 <=? n) && (n / 100 + 1 <? Z.of_nat (List.length idxs)) then [] else idxs.

Definition isbjunk (x : ascii) : bool := false.

(** [j2len.get(j, 0)] *)
Fixpoint j2len_get (j2len : list (Z * Z)) (j : Z) : Z :=
  match j2len with
  | [] => 0
  | (j', k) :: rest => if j' =? j then k else j2len_get rest j
  end.

(** The loop [for j in b2j.get(a[i], nothing)]. *)
Fixpoint scan_b (js : list Z) (blo bhi i : Z) (j2len newj2len : list (Z * Z))
  (best : block) : list (Z * Z) * block :=
  match js with
  | [] => (newj2len, best)
  | j :: js' =>
      if j <? blo then scan_b js' blo bhi i j2len newj2len best
      else if j >=? bhi then (newj2len, best)
      else
        let k := j2len_get j2len (j - 1) + 1 in
        let '(_, _, bestsize) := best in
        scan_b js' blo bhi i j2len ((j, k) :: newj2len)
          (if k >? bestsize then (i - k + 1, j - k + 1, k) else best)
  end.

(** [range(lo, hi)] *)
Definition range (lo hi : Z) : list Z :=
  map (fun n => lo + Z.of_nat n) (seq 0 (Z.to_nat (hi - lo))).

(** The loop [for i in range(alo, ahi)]: the state is [(j2len, best)]. *)
Definition scan_a (a b : list ascii) (alo ahi blo bhi : Z) : list (Z * Z) * block :=
  fold_left
    (fun (st : list (Z * Z) * block) (i : Z) =>
       scan_b (b2j_get b (elt a i)) blo bhi i (fst st) [] (snd st))
    (range alo ahi) ([], (alo, blo, 0)).

(** The two shapes of [while] loop that grow the best block, downwards and
    upwards; [junk] is the value [isbjunk] must take for the loop to go on.
    [n] bounds the number of rounds by the room that is left. *)
Fixpoint grow_down (n : nat) (junk : bool) (a b : list ascii) (alo blo : Z)
  (m : block) : block :=
  match n with
  | O => m
  | S n' =>
      let '(besti, bestj, bestsize) := m in
      if (besti >? alo) && (bestj >? blo)
         && Bool.eqb (isbjunk (elt b (bestj - 1))) junk
         && Ascii.eqb (elt a (besti - 1)) (elt b (bestj - 1))
      then grow_down n' junk a b alo blo (besti - 1, bestj - 1, bestsize + 1)
      else m
  end.

Fixpoint grow_up (n : nat) (junk : bool) (a b : list ascii) (ahi bhi : Z)
  (m : block) : block :=
  match n with
  | O => m
  | S n' =>
      let '(besti, bestj, bestsize) := m in
      if (besti + bestsize <? ahi) && (bestj + bestsize <? bhi)
         && Bool.eqb (isbjunk (elt b (bestj + bestsize))) junk
         && Ascii.eqb (elt a (besti + bestsize)) (elt b (bestj + bestsize))
      then grow_up n' junk a b ahi bhi (besti, bestj, bestsize + 1)
      else m
  end.

Definition room_down (alo : Z) (m : block) : nat :=
  let '(besti, _, _) := m in Z.to_nat (besti - alo).

Definition room_up (ahi : Z) (m : block) : nat :=
  let '(besti, _, bestsize) := m in Z.to_nat (ahi - (besti + bestsize)).

Definition find_longest_match (a b : list ascii) (alo ahi blo bhi : Z) : block :=
  let m0 := snd (scan_a a b alo ahi blo bhi) in
  let m1 := grow_down (room_down alo m0) false a b alo blo m0 in
  let m2 := grow_up (room_up ahi m1) false a b ahi bhi m1 in
  let m3 := grow_down (room_down alo m2) true a b alo blo m2 in
  grow_up (room_up ahi m3) true a b ahi bhi m3.

(** The loop [while queue] of [get_matching_blocks].  The head of [queue] is
    the end of the Python list, where [pop] and [append] work.  [None] is
    returned when [fuel] runs out before the queue is empty. *)
Fixpoint blocks_loop (fuel : nat) (a b : list ascii) (queue : list span)
  (matching_blocks : list block) : option (list block) :=
  match queue with
  | [] => Some matching_blocks
  | (alo, ahi, blo, bhi) :: queue' =>
      match fuel with
      | O => None
      | S fuel' =>
          let '(i, j, k) := find_longest_match a b alo ahi blo bhi in
          if k =? 0 then blocks_loop fuel' a b queue' matching_blocks
          else
            let q1 := if (alo <? i) && (blo <? j)
                      then (alo, i, blo, j) :: queue' else queue' in
            let q2 := if (i + k <? ahi) && (j + k <? bhi)
                      then (i + k, ahi, j + k, bhi) :: q1 else q1 in
            blocks_loop fuel' a b q2 (matching_blocks ++ [(i, j, k)])%list
      end
  end.

(** Tuple order, and [list.sort] on blocks. *)
Definition block_leb (x y : block) : bool :=
  let '(i1, j1, k1) := x in
  let '(i2, j2, k2) := y in
  (i1 <? i2) || ((i1 =? i2) && ((j1 <? j2) || ((j1 =? j2) && (k1 <=? k2)))).

Fixpoint insert_block (x : block) (l : list block) : list block :=
  match l with
  | [] => [x]
  | y :: l' => if block_leb x y then x :: l else y :: insert_block x l'
  end.

Definition sort_blocks (l : list block) : list block :=
  fold_right insert_block [] l.

(** The loop that merges adjacent blocks: the state is
    [((i1, j1, k1), non_adjacent)]. *)
Definition collapse_step (st : block * list block) (x : block) : block * list block :=
  let '((i1, j1, k1), non_adjacent) := st in
  let '(i2, j2, k2) := x in
  if (i1 + k1 =? i2) && (j1 + k1 =? j2) then ((i1, j1, k1 + k2), non_adjacent)
  else ((i2, j2, k2),
        if k1 =? 0 then non_adjacent else (non_adjacent ++ [(i1, j1, k1)])%list).

(** Fuel that [blocks_loop] cannot exhaust, see [blocks_loop_total]. *)
Definition enough_fuel (a : list ascii) : nat := 2 * List.length a + 1.

Definition get_matching_blocks (a b : list ascii) : list block :=
  let la := Z.of_nat (List.length a) in
  let lb := Z.of_nat (List.length b) in
  let matching_blocks :=
    match blocks_loop (enough_fuel a) a b [(0, la, 0, lb)] [] with
    | Some l => l
    | None => []
    end in
  let '((i1, j1, k1), non_adjacent) :=
    fold_left collapse_step (sort_blocks matching_blocks) ((0, 0, 0), []) in
  ((if k1 =? 0 then non_adjacent else non_adjacent ++ [(i1, j1, k1)])
   ++ [(la, lb, 0)])%list.

Definition _calculate_ratio (matches length : Z) : Q :=
  if length =? 0 then 1%Q else Qmake (2 * matches) (Z.to_pos length).

Definition ratio_of (a b : list ascii) : Q :=
  let matches :=
    fold_left (fun acc (triple : block) => acc + snd triple) (get_matching_blocks a b) 0 in
  _calculate_ratio matches (Z.of_nat (List.length a) + Z.of_nat (List.length b)).

(** [SequenceMatcher(None, a, b).ratio()] *)
Definition ratio (a b : string) : Q :=
  ratio_of (list_ascii_of_string a) (list_ascii_of_string b).

End difflib.

(** ** The command table and the dispatcher *)

(** The keys of [COMMANDS]: the handler functions, by name. *)
Module Cmd.
Inductive t : Type :=
| show_list | delete_phone | days_to_birthday | add_birthday | add_phone
| hello | show_all | change | phone | helper | delete_contact | search
| add_email.
End Cmd.

(** [COMMANDS.items()], in insertion order. *)
Definition COMMANDS : list (Cmd.t * string) :=
  [ (Cmd.show_list, "show list");
    (Cmd.delete_phone, "delete phone");
    (Cmd.days_to_birthday, "when birthday");
    (Cmd.add_birthday, "add birthday");
    (Cmd.add_phone, "add contact");
    (Cmd.hello, "hello");
    (Cmd.show_all, "show all");
    (Cmd.change, "change");
    (Cmd.phone, "show");
    (Cmd.helper, "help");
    (Cmd.delete_contact, "delete contact");
    (Cmd.search, "search");
    (Cmd.add_email, "add email") ].

(** [a > ratio] *)
Definition Qgtb (a ratio : Q) : bool := negb (Qle_bool a ratio).

(** What [command_parser] returns, and the lines it prints. *)
Definition parsed : Type := (option Cmd.t * option (list string))%type.

Definition maybe_you_meant (possible_command : string) : string :=
  "Maybe you meant '" ++ possible_command ++ "' ?".

(** The loop of [command_parser] over the remaining items of the table, with
    the current [ratio] and [possible_command]. *)
Fixpoint command_loop (items : list (Cmd.t * string)) (user_input : string)
  (ratio : Q) (possible_command : string) : parsed * list string :=
  match items with
  | [] => ((None, None), [maybe_you_meant possible_command])
  | (command, key_word) :: rest =>
      if Str.startswith user_input key_word
      then ((Some command,
             Some (Str.split (Str.strip (Str.replace user_input key_word "")) " ")),
            [])
      else
        let a := difflib.ratio user_input key_word in
        if Qgtb a ratio
        then command_loop rest user_input a key_word
        else command_loop rest user_input ratio possible_command
  end.

Definition command_parser (user_input : string) : parsed * list string :=
  command_loop COMMANDS user_input 0%Q "".

(** ** [datetime.date] *)

Module datetime.

Record date : Type := mkdate { year : Z; month : Z; day : Z }.

Definition is_leap (y : Z) : bool :=
  (y mod 4 =? 0) && (negb (y mod 100 =? 0) || (y mod 400 =? 0)).

Definition days_in_month (y m : Z) : Z :=
  if (m =? 2) && is_leap y then 29
  else nth (Z.to_nat m) [-1; 31; 28; 31; 30; 31; 30; 31; 31; 30; 31; 30; 31] (-1).

Definition days_before_year (y : Z) : Z :=
  let y := y - 1 in y * 365 + y / 4 - y / 100 + y / 400.

Definition days_before_month (y m : Z) : Z :=
  nth (Z.to_nat m) [-1; 0; 31; 59; 90; 120; 151; 181; 212; 243; 273; 304; 334] (-1)
  + (if (m >? 2) && is_leap y then 1 else 0).

(** [date(y, m, d)], with the checks of the constructor in their order. *)
Definition new (y m d : Z) : res date :=
  if (y <? 1) || (y >? 9999)
  then Raise (ValueError ["year " ++ Str.of_int y ++ " is out of range"])
  else if (m <? 1) || (m >? 12)
  then Raise (ValueError ["month must be in 1..12"])
  else if (d <? 1) || (d >? days_in_month y m)
  then Raise (ValueError ["day is out of range for month"])
  else Ret (mkdate y m d).

Definition toordinal (x : date) : Z :=
  days_before_year (year x) + days_before_month (year x) (month x) + day x.

(** [x.replace(year=y)] *)
Definition replace_year (x : date) (y : Z) : res date := new y (month x) (day x).

(** [x > y] *)
Definition gt (x y : date) : bool :=
  (year x >? year y)
  || ((year x =? year y)
      && ((month x >? month y) || ((month x =? month y) && (day x >? day y)))).

(** *** [datetime.strptime(s, "%d-%m-%Y").date()]

    [_strptime] matches [s] against the regular expression
    [(3[0-1]|[1-2]\d|0[1-9]|[1-9]| [1-9])-(1[0-2]|0[1-9]|[1-9])-(\d\d\d\d)],
    alternatives tried from left to right, refuses text left over after the
    match, and builds the date from the three numbers.  Every failure is a
    [ValueError], reported here as [None]. *)

Definition digit (c : ascii) : Z := Z.of_N (Str.code c) - 48.

Definition matcher : Type := string -> option (Z * string).

Definition two_chars (p1 p2 : ascii -> bool) (value : ascii -> ascii -> Z) : matcher :=
  fun s =>
    match s with
    | String c1 (String c2 rest) =>
        if p1 c1 && p2 c2 then Some (value c1 c2, rest) else None
    | _ => None
    end.

Definition one_char (p : ascii -> bool) : matcher :=
  fun s =>
    match s with
    | String c rest => if p c then Some (digit c, rest) else None
    | _ => None
    end.

Definition number (c1 c2 : ascii) : Z := 10 * digit c1 + digit c2.

(** The character class [[lo-hi]]. *)
Definition class (lo hi : ascii) (c : ascii) : bool :=
  Str.between (Str.code lo) (Str.code hi) c.

Definition regex_d : list matcher :=
  [ two_chars (class "3" "3") (class "0" "1") number;
    two_chars (class "1" "2") Str.char_isdecimal number;
    two_chars (class "0" "0") (class "1" "9") number;
    one_char (class "1" "9");
    two_chars (class " " " ") (class "1" "9") (fun _ c2 => digit c2) ].

Definition regex_m : list matcher :=
  [ two_chars (class "1" "1") (class "0" "2") number;
    two_chars (class "0" "0") (class "1" "9") number;
    one_char (class "1" "9") ].

Definition regex_Y : matcher :=
  fun s =>
    match s with
    | String c1 (String c2 (String c3 (String c4 rest))) =>
        if Str.char_isdecimal c1 && Str.char_isdecimal c2
           && Str.char_isdecimal c3 && Str.char_isdecimal c4
        then Some (1000 * digit c1 + 100 * digit c2 + 10 * digit c3 + digit c4, rest)
        else None
    | _ => None
    end.

(** The first alternative after which the rest of the pattern, [k], matches. *)
Fixpoint first_match {A : Type} (alts : list matcher) (s : string)
  (k : Z -> string -> option A) : option A :=
  match alts with
  | [] => None
  | alt :: alts' =>
      match (match alt s with Some (v, rest) => k v rest | None => None end) with
      | Some r => Some r
      | None => first_match alts' s k
      end
  end.

Definition hyphen {A : Type} (s : string) (k : string -> option A) : option A :=
  match s with
  | String c rest => if class "-" "-" c then k rest else None
  | EmptyString => None
  end.

Definition regex_match (s : string) : option (Z * Z * Z * string) :=
  first_match regex_d s (fun d s1 =>
  hyphen s1 (fun s2 =>
  first_match regex_m s2 (fun m s3 =>
  hyphen s3 (fun s4 =>
  match regex_Y s4 with
  | Some (y, rest) => Some (d, m, y, rest)
  | None => None
  end)))).

Definition strptime (s : string) : option date :=
  match regex_match s with
  | Some (d, m, y, EmptyString) =>
      match new y m d with
      | Ret x => Some x
      | Raise _ => None
      end
  | _ => None
  end.

(** *** [x.strftime("%d-%m-%Y")]

    [%d] and [%m] are two digits.  CPython 3.11 leaves [%Y] to the [strftime]
    of the C library, and glibc writes the year without padding: on Linux
    [date(999, 1, 1).strftime("%Y")] is "999". *)
Definition two_digits (n : Z) : string :=
  if n <? 10 then "0" ++ Str.of_int n else Str.of_int n.

Definition strftime (x : date) : string :=
  two_digits (day x) ++ "-" ++ two_digits (month x) ++ "-" ++ Str.of_int (year x).

End datetime.

(** ** The field classes *)

Module Name.
Record t : Type := make { value : string }.
Definition str (self : t) : string := value self.
End Name.

Module Phone.

Record t : Type := make { value : string }.

(** [Phone(value)]: [Field.__init__] assigns through the setter of
    [Phone.value]. *)
Definition init (value : string) : res t :=
  if negb (Str.len value =? 12)
  then Raise (ValueError ["Phone must contains 12 symbols."])
  else if negb (Str.startswith value "380")
  then Raise (ValueError ["Phone must starts from '380'."])
  else if negb (Str.isnumeric value)
  then Raise (ValueError ["Phone number must include digits only."])
  else Ret (make value).

Definition str (self : t) : string := value self.

End Phone.

Module Birthday.

Record t : Type := make { value : datetime.date }.

(** [Birthday(value)], on the day [today]. *)
Definition init (today : datetime.date) (value : string) : res t :=
  match datetime.strptime value with
  | None => Raise (ValueError ["Birthday must be in a format 'DD-MM-YYYY'"])
  | Some d =>
      if datetime.gt d today
      then Raise (ValueError ["Birthday can't be bigger than current date."])
      else Ret (make d)
  end.

Definition str (self : t) : string := datetime.strftime (value self).

End Birthday.

(** ** The pattern of [Email]

    [re.findall(r"\b[A-Za-z][\w+.]+@\w+[.][a-z]{2,3}", value)] is not empty
    exactly when the pattern matches somewhere in [value].  Each piece of the
    pattern is a function of the text left and of the rest of the pattern,
    [k]; a repetition tries every length it allows. *)

Module re.

(** [\w] *)
Definition word (c : ascii) : bool := Str.char_isalnum c || Str.between 95 95 c.

(** [[A-Za-z]], [[\w+.]], [[.]] and [[a-z]] *)
Definition letter (c : ascii) : bool := Str.between 65 90 c || Str.between 97 122 c.
Definition local (c : ascii) : bool := word c || Str.between 43 43 c || Str.between 46 46 c.
Definition dot (c : ascii) : bool := Str.between 46 46 c.
Definition small (c : ascii) : bool := Str.between 97 122 c.

(** One character of the class [p], then [k]. *)
Definition one (p : ascii -> bool) (s : string) (k : string -> bool) : bool :=
  match s with
  | String c s' => p c && k s'
  | EmptyString => false
  end.

(** [p+], then [k]: the longest run first. *)
Fixpoint plus (p : ascii -> bool) (s : string) (k : string -> bool) : bool :=
  match s with
  | String c s' => p c && (plus p s' k || k s')
  | EmptyString => false
  end.

(** [[a-z]{2,3}] at the end of the pattern. *)
Definition two_or_three (s : string) : bool :=
  one small s (fun s1 => one small s1 (fun s2 => one small s2 (fun _ => true) || true)).

(** [\b] between the character [prev] and the text [s]: exactly one of the
    two sides is a word character. *)
Definition is_word (c : option ascii) : bool :=
  match c with
  | Some c => word c
  | None => false
  end.

Definition first (s : string) : option ascii :=
  match s with
  | String c _ => Some c
  | EmptyString => None
  end.

Definition boundary (prev : option ascii) (s : string) : bool :=
  xorb (is_word prev) (is_word (first s)).

(** The pattern matches at the start of [s], the character before being
    [prev]. *)
Definition match_at (prev : option ascii) (s : string) : bool :=
  boundary prev s
  && one letter s (fun s1 =>
     plus local s1 (fun s2 =>
     one (Str.between 64 64) s2 (fun s3 =>
     plus word s3 (fun s4 =>
     one dot s4 two_or_three)))).

(** The pattern matches somewhere in [s]. *)
Fixpoint found (prev : option ascii) (s : string) : bool :=
  match_at prev s
  || match s with
     | String c s' => found (Some c) s'
     | EmptyString => false
     end.

End re.

Module Email.
Record t : Type := make { value : string }.
Definition str (self : t) : string := value self.

Definition wrong_format : string :=
  "Wrong format. Example: " ++ Str.dquote ++ "mymail@gmail.com" ++ Str.dquote.

(** [Email(value)] *)
Definition init (value : string) : res t :=
  if negb (re.found None value) then Raise (ValueError [wrong_format])
  else Ret (make value).

End Email.

(** [f"{x}"] for a field that may be [None]. *)
Definition format_option {A : Type} (str : A -> string) (x : option A) : string :=
  match x with
  | Some a => str a
  | None => "None"
  end.

(** ** [Record] *)

Module Record_.

Record t : Type := make {
  name : Name.t;
  phones : list Phone.t;
  birthday : option Birthday.t;
  email : option Email.t
}.

(** [Record(name, phone)] *)
Definition init (name : Name.t) (phone : option Phone.t) : t :=
  make name (match phone with Some p => [p] | None => [] end) None None.

Definition set_phones (self : t) (l : list Phone.t) : t :=
  make (name self) l (birthday self) (email self).

Definition add_phone (self : t) (phone : Phone.t) : t * string :=
  (set_phones self (phones self ++ [phone])%list,
   "Phone " ++ Phone.str phone ++ " was added successfully").

(** [change]: both branches of the loop body return, so the loop body runs
    for the first phone only; with no phone the function falls off its end
    and returns [None]. *)
Definition change (self : t) (old_phone new_phone : Phone.t) : t * option string :=
  match phones self with
  | [] => (self, None)
  | phone :: rest =>
      if String.eqb (Phone.value phone) (Phone.value old_phone)
      then (set_phones self (rest ++ [new_phone])%list,
            Some ("Phone " ++ Phone.str old_phone ++ " was successfully changed to "
                  ++ Phone.str new_phone))
      else (self,
            Some ("Phone number '" ++ Phone.str old_phone
                  ++ "' was not found in the record"))
  end.

Definition add_birthday (self : t) (b : Birthday.t) : t :=
  make (name self) (phones self) (Some b) (email self).

Definition will_be_in (self : t) (delta : Z) : string :=
  Name.str (name self) ++ "'s birthday will be in " ++ Str.of_int delta ++ " days".

Definition days_to_birthday (today : datetime.date) (self : t) : res string :=
  let cur_date := today in
  let cur_year := datetime.year cur_date in
  match birthday self with
  | Some b =>
      let bd := Birthday.value b in
      this_year_bd <- datetime.replace_year bd cur_year ;;
      let delta := datetime.toordinal this_year_bd - datetime.toordinal cur_date in
      if delta >? 0 then Ret (will_be_in self delta)
      else
        next_year_bd <- datetime.replace_year this_year_bd (cur_year + 1) ;;
        let delta := datetime.toordinal next_year_bd - datetime.toordinal cur_date in
        Ret (will_be_in self delta)
  | None => Ret (Name.str (name self) ++ "'s birthday is unknown")
  end.

Definition add_email (self : t) (e : Email.t) : t :=
  make (name self) (phones self) (birthday self) (Some e).

(** The loop of [remove_phone]: the phones passed over, and the first phone
    whose value is [value], if there is one, with the phones after it. *)
Fixpoint find_phone (value : string) (phones : list Phone.t)
  : option (list Phone.t * Phone.t * list Phone.t) :=
  match phones with
  | [] => None
  | ph :: phones' =>
      if String.eqb (Phone.value ph) value then Some ([], ph, phones')
      else
        match find_phone value phones' with
        | Some (before, found, after) => Some (ph :: before, found, after)
        | None => None
        end
  end.

(** [remove_phone]: the text is first made a [Phone]. *)
Definition remove_phone (self : t) (phone : string) : res (t * string) :=
  phone <- Phone.init phone ;;
  match find_phone (Phone.value phone) (phones self) with
  | Some (before, ph, after) =>
      Ret (set_phones self (before ++ after)%list,
           "Phone " ++ Phone.str ph ++ " was successfully removed from "
           ++ Name.str (name self))
  | None => Ret (self, "Number " ++ Phone.str phone ++ " not found")
  end.

End Record_.

(** ** [AddressBook] *)

Module AddressBook.

(** [self.data]: a dict from names to records, in insertion order, keys
    distinct. *)
Definition t : Type := list (string * Record_.t).

Fixpoint get (data : t) (key : string) : option Record_.t :=
  match data with
  | [] => None
  | (k, v) :: data' => if String.eqb k key then Some v else get data' key
  end.

(** [data[key] = v]: a key already there keeps its place. *)
Fixpoint set (data : t) (key : string) (v : Record_.t) : t :=
  match data with
  | [] => [(key, v)]
  | (k, w) :: data' =>
      if String.eqb k key then (k, v) :: data' else (k, w) :: set data' key v
  end.

(** [data.pop(key, None)] *)
Fixpoint pop (data : t) (key : string) : t :=
  match data with
  | [] => []
  | (k, w) :: data' => if String.eqb k key then data' else (k, w) :: pop data' key
  end.

Definition values (data : t) : list Record_.t := map snd data.

Definition add_record (self : t) (record : Record_.t) : t :=
  set self (Name.value (Record_.name record)) record.

Definition remove_record (self : t) (record : Record_.t) : t :=
  pop self (Name.value (Record_.name record)).

(** The line [search_in_file] adds for a record. *)
Definition found_line (record : Record_.t) : string :=
  "Name: " ++ Name.str (Record_.name record)
  ++ " Birthday: " ++ format_option Birthday.str (Record_.birthday record)
  ++ " Phone: " ++ Str.join "," (map Phone.value (Record_.phones record))
  ++ Str.newline.

(** The loop [for phone in record.phones] of [search_in_file]. *)
Fixpoint search_phones (data : string) (record : Record_.t) (phones : list Phone.t)
  (result : string) : string :=
  match phones with
  | [] => result
  | phone :: phones' =>
      search_phones data record phones'
        (if Str.contains (Str.lower data) (Phone.str phone)
         then result ++ found_line record else result)
  end.

(** The loop [for record in self.data.values()] of [search_in_file]. *)
Fixpoint search_records (data : string) (records : list Record_.t) (result : string)
  : string :=
  match records with
  | [] => result
  | record :: records' =>
      search_records data records'
        (if Str.contains (Str.lower data) (Str.lower (Name.str (Record_.name record)))
         then result ++ found_line record
         else search_phones data record (Record_.phones record) result)
  end.

Definition search_in_file (self : t) (data : string) : string :=
  search_records data (values self) "".

(** [show_one_record]: [self.data[name]] raises [KeyError]. *)
Definition show_one_record (self : t) (name : string) : res string :=
  match get self name with
  | None => Raise KeyError
  | Some record =>
      Ret ("Name: " ++ name
           ++ "; Birthday: " ++ format_option Birthday.str (Record_.birthday record)
           ++ "; Phone: " ++ Str.join ", " (map Phone.value (Record_.phones record))
           ++ "; Email: " ++ format_option Email.str (Record_.email record))
  end.

(** [change_record]: the record found is changed in place, and what
    [record.change] returns is dropped. *)
Definition change_record (self : t) (username : string) (old_n new_n : Phone.t) : t :=
  match get self username with
  | Some record => set self username (fst (Record_.change record old_n new_n))
  | None => self
  end.

(** [key in self] *)
Definition has (self : t) (key : string) : bool :=
  match get self key with
  | Some _ => true
  | None => false
  end.

(** The line of a record in [show_all_records]; the lines are joined by new
    lines. *)
Definition shown_line (rec : Record_.t) : string :=
  "Name: " ++ Name.str (Record_.name rec)
  ++ " Birthday: " ++ format_option Birthday.str (Record_.birthday rec)
  ++ "; Phone: " ++ Str.join ", " (map Phone.value (Record_.phones rec))
  ++ " Email: " ++ format_option Email.str (Record_.email rec).

Definition show_all_records (self : t) : string :=
  Str.join Str.newline (map shown_line (values self)).

(** The line of a record in [iterator]. *)
Definition listed_line (rec : Record_.t) : string :=
  Name.str (Record_.name rec)
  ++ " (B-day: " ++ format_option Birthday.str (Record_.birthday rec)
  ++ "): " ++ Str.join ", " (map Phone.value (Record_.phones rec))
  ++ Str.newline.

(** The loop of [iterator], with the current [count] and [result]. *)
Fixpoint iterator_loop (n : Z) (records : list Record_.t) (count : Z) (result : string)
  : string :=
  match records with
  | [] => result
  | rec :: records' =>
      if count <? n
      then iterator_loop n records' (count + 1) (result ++ listed_line rec)
      else iterator_loop n records' count result
  end.

(** [iterator(n)]: the values the generator yields, a single string. *)
Definition iterator (self : t) (n : Z) : list string :=
  let records_num := Z.of_nat (List.length self) in
  let n := if n >? records_num then records_num else n in
  [iterator_loop n (values self) 0 ""].

End AddressBook.

(** ** The handlers *)

(** A function called with the argument tuple, on the global [ADDRESSBOOK]:
    it returns or raises, and leaves a book. *)
Definition handler : Type :=
  list string -> AddressBook.t -> res string * AddressBook.t.

(** The decorator.  [exception.args[0]] raises [IndexError] from inside the
    [except] clause when the [ValueError] carries no argument. *)
Definition error_handler (func : handler) : handler :=
  fun args book =>
    match func args book with
    | (Ret r, book') => (Ret r, book')
    | (Raise IndexError, book') =>
        (Ret "You didn't provide contact name or phone number", book')
    | (Raise (ValueError eargs), book') =>
        (match eargs with
         | m :: _ => Ret m
         | [] => Raise IndexError
         end, book')
    | (Raise KeyError, book') => (Ret "User is not in contact list", book')
    | (Raise TypeError, book') => (Ret "You didn't provide enough parameters", book')
    | (Raise e, book') => (Raise e, book')
    end.

(** A body that does not touch the book. *)
Definition pure (body : res string) : AddressBook.t -> res string * AddressBook.t :=
  fun book => (body, book).

Definition hello : handler :=
  error_handler (fun args => pure (Ret "How can I help you?")).

Definition change : handler :=
  error_handler (fun args book =>
    match
      (a0 <- item args 0 ;;
       let name := Name.make a0 in
       a1 <- item args 1 ;;
       old_ph <- Phone.init a1 ;;
       a2 <- item args 2 ;;
       new_ph <- Phone.init a2 ;;
       if negb (Str.isnumeric (Phone.value new_ph)) then Raise (ValueError [])
       else Ret (name, old_ph, new_ph))
    with
    | Raise e => (Raise e, book)
    | Ret (name, old_ph, new_ph) =>
        (Ret ("You just changed number for contact '" ++ Name.str name
              ++ "'. New number is '" ++ Phone.str new_ph ++ "'"),
         AddressBook.change_record book (Name.value name) old_ph new_ph)
    end).

Definition phone : handler :=
  error_handler (fun args book =>
    pure (a0 <- item args 0 ;; AddressBook.show_one_record book a0) book).

(** [days_to_birthday], on the day [today]. *)
Definition days_to_birthday (today : datetime.date) : handler :=
  error_handler (fun args book =>
    pure (a0 <- item args 0 ;;
          let name := Name.make a0 in
          match AddressBook.get book (Name.value name) with
          | Some record =>
              match Record_.birthday record with
              | Some _ => Record_.days_to_birthday today record
              | None => Ret (Name.value name ++ "'s birthday is not set")
              end
          | None => Ret (Name.value name ++ " is not in your contacts")
          end) book).

(** [search] is defined without the decorator. *)
Definition search : handler :=
  fun args book =>
    pure (a0 <- item args 0 ;; Ret (AddressBook.search_in_file book a0)) book.

Definition show_all : handler :=
  error_handler (fun args book =>
    pure (if Z.of_nat (List.length book) >? 0
          then Ret (AddressBook.show_all_records book)
          else Ret "Your addressbook is empty") book).

Definition delete_contact : handler :=
  error_handler (fun args book =>
    match item args 0 with
    | Raise e => (Raise e, book)
    | Ret a0 =>
        let name := Name.make a0 in
        let rec := Record_.init name None in
        match Name.value name with
        | EmptyString => (Raise IndexError, book)
        | _ =>
            (Ret (Name.str name ++ " was deleted from your contact list"),
             AddressBook.remove_record book rec)
        end
    end).

Definition delete_phone : handler :=
  error_handler (fun args book =>
    match (a0 <- item args 0 ;;
           a1 <- item args 1 ;;
           phone <- Phone.init a1 ;;
           Ret (Name.make a0, phone))
    with
    | Raise e => (Raise e, book)
    | Ret (name, phone) =>
        match AddressBook.get book (Name.value name) with
        | Some record =>
            match Record_.remove_phone record (Phone.value phone) with
            | Raise e => (Raise e, book)
            | Ret (record', _) =>
                (Ret ("Phone " ++ Phone.str phone ++ " was deleted from "
                      ++ Name.value name ++ " "),
                 AddressBook.set book (Name.value name) record')
            end
        | None => (Ret ("Contact " ++ Name.value name ++ " does not exist"), book)
        end
    end).

(** [add_birthday], on the day [today]. *)
Definition add_birthday (today : datetime.date) : handler :=
  error_handler (fun args book =>
    match (a0 <- item args 0 ;;
           a1 <- item args 1 ;;
           birthday <- Birthday.init today a1 ;;
           Ret (Name.make a0, birthday))
    with
    | Raise e => (Raise e, book)
    | Ret (name, birthday) =>
        match AddressBook.get book (Name.value name) with
        | Some rec =>
            (Ret ("The birthday for " ++ Name.value name ++ " was added"),
             AddressBook.set book (Name.value name) (Record_.add_birthday rec birthday))
        | None => (Ret (Name.value name ++ " is not in your contact list"), book)
        end
    end).

Definition add_email : handler :=
  error_handler (fun args book =>
    match (a0 <- item args 0 ;;
           a1 <- item args 1 ;;
           email <- Email.init a1 ;;
           Ret (Name.make a0, email))
    with
    | Raise e => (Raise e, book)
    | Ret (name, email) =>
        match AddressBook.get book (Name.value name) with
        | Some rec =>
            (Ret ("Email for " ++ Name.value name ++ " was added"),
             AddressBook.set book (Name.value name) (Record_.add_email rec email))
        | None => (Ret (Name.value name ++ " is not in your contact list"), book)
        end
    end).

Definition HELP_INSTRUCTIONS : string :=
"This contact bot save your contacts 
    Global commands:
      'add contact' - add new contact. Input user name and phone
    Example: add User_name 095-xxx-xx-xx
      'add birthday' - add birthday of some User. Input user name and birthday in format dd-mm-yyyy
    Example: add User_name 1971-01-01
      'add email' - add email of some User.
    Example: add email User_name example@mail.com
      'change' - change users old phone to new phone. Input user name, old phone and new phone
    Example: change User_name 095-xxx-xx-xx 050-xxx-xx-xx
      'delete contact' - delete contact (name and phones). Input user name
    Example: delete contact User_name
      'delete phone' - delete phone of some User. Input user name and phone
    Example: delete phone User_name 099-xxx-xx-xx
      'show' - show contacts of input user. Input user name
    Example: show User_name
      'show all' - show all contacts
    Example: show all
      'show list' - show list of contacts which contains N-users
    Example: show list 5 
      'when birthday' - show days to birthday of User/ Input user name
    Example: when celebrate User_name
      'exit/'.'/'bye'/'good bye'/'close' - exit bot
    Example: good bye".

Definition helper : handler :=
  error_handler (fun args => pure (Ret HELP_INSTRUCTIONS)).

Definition show_list : handler :=
  error_handler (fun args book =>
    pure (if negb (Z.of_nat (List.length book) =? 0)
          then a0 <- item args 0 ;;
               n <- builtins.int a0 ;;
               Ret (Str.join "" (AddressBook.iterator book n))
          else Ret "Your address book is empty") book).

(** *** [add_phone] and the console

    [add_phone] talks to the user.  The console holds the lines still to be
    read and what was written so far, prompts included. *)

Record console : Type := mkconsole { pending : list string; written : list string }.

(** The decorator, for a function whose state is not the book alone. *)
Definition error_handler_on {S : Type}
  (func : list string -> S -> res string * S) : list string -> S -> res string * S :=
  fun args st =>
    match func args st with
    | (Ret r, st') => (Ret r, st')
    | (Raise IndexError, st') =>
        (Ret "You didn't provide contact name or phone number", st')
    | (Raise (ValueError eargs), st') =>
        (match eargs with
         | m :: _ => Ret m
         | [] => Raise IndexError
         end, st')
    | (Raise KeyError, st') => (Ret "User is not in contact list", st')
    | (Raise TypeError, st') => (Ret "You didn't provide enough parameters", st')
    | (Raise e, st') => (Raise e, st')
    end.

(** The three answers the loop of [add_phone] accepts. *)
Inductive answer : Type := Rewrite | NewRecord | AddNumber.

Definition already_exist (name : string) : string :=
  "Contact with this name already exist, do you want to rewrite it (1), create new record (2) or add this number to '"
  ++ name ++ "' (3)?" ++ Str.newline.

Definition please_type : string := "Please type '1' or '2' or '3' to continue".

(** The loop [while True] of [add_phone]: [input] writes the prompt and
    reads a line, and raises [EOFError] when there is none. *)
Fixpoint ask (prompt : string) (pending written : list string) : res answer * console :=
  match pending with
  | [] => (Raise EOFError, mkconsole [] (written ++ [prompt]))
  | user_input :: rest =>
      if String.eqb user_input "2"
      then (Ret NewRecord, mkconsole rest (written ++ [prompt]))
      else if String.eqb user_input "1"
      then (Ret Rewrite, mkconsole rest (written ++ [prompt]))
      else if String.eqb user_input "3"
      then (Ret AddNumber, mkconsole rest (written ++ [prompt]))
      else ask prompt rest (written ++ [prompt; please_type])
  end.

Definition you_just_added (name phone : string) : string :=
  "You just added contact " ++ Str.dquote ++ name ++ Str.dquote
  ++ " with phone " ++ Str.dquote ++ phone ++ Str.dquote
  ++ " to your list of contacts".

(** The end of [add_phone]: the phone goes to the record [rec] found under
    [name], or to a new record. *)
Definition store_phone (book : AddressBook.t) (name : string)
  (rec : option Record_.t) (phone : Phone.t) : res string * AddressBook.t :=
  if negb (Str.isnumeric (Phone.value phone)) then (Raise (ValueError []), book)
  else
    (Ret (you_just_added name (Phone.str phone)),
     match rec with
     | Some r => AddressBook.set book name (fst (Record_.add_phone r phone))
     | None => AddressBook.add_record book (Record_.init (Name.make name) (Some phone))
     end).

Definition add_phone
  : list string -> AddressBook.t * console -> res string * (AddressBook.t * console) :=
  error_handler_on (fun args st =>
    let '(book, io) := st in
    match (a0 <- item args 0 ;;
           a1 <- item args 1 ;;
           phone <- Phone.init a1 ;;
           Ret (a0, phone))
    with
    | Raise e => (Raise e, st)
    | Ret (name, phone) =>
        match AddressBook.get book name with
        | None =>
            let '(r, book') := store_phone book name None phone in (r, (book', io))
        | Some rec =>
            match ask (already_exist name) (pending io) (written io) with
            | (Raise e, io') => (Raise e, (book, io'))
            | (Ret NewRecord, io') =>
                let name' := name ++ "(1)" in
                let '(r, book') :=
                  store_phone book name' (AddressBook.get book name') phone in
                (r, (book', io'))
            | (Ret Rewrite, io') =>
                let book1 := AddressBook.remove_record book rec in
                let '(r, book') :=
                  store_phone book1 name (AddressBook.get book1 name) phone in
                (r, (book', io'))
            | (Ret AddNumber, io') =>
                let '(r, book') := store_phone book name (Some rec) phone in
                (r, (book', io'))
            end
        end
    end).

(** ** The call of the handler in [main] *)



(** ** One iteration of the loop of [main] *)

Definition end_words : list string := ["."; "close"; "bye"; "exit"].

(** What the iteration does after reading [user_input]. *)
Inductive step : Type :=
| Leave (saved : bool)
| Again
| Call (command : Cmd.t) (data : list string)
| Skip.

(** The branch entered on an end word; [save_file] is the answer read by
    [input("Do you want to save changes? 'y/n'")]. *)
Definition save_confirmation (save_file : string) : step * list string :=
  if String.eqb save_file "y"
  then (Leave true, ["Your data was saved"; "Goodbye and good luck"])
  else if String.eqb save_file "n"
  then (Leave false, ["Goodbye and good luck"])
  else (Again, ["Incorrect input! Try again please."]).

(** [x in l] on a list of strings. *)
Definition member (x : string) (l : list string) : bool := existsb (String.eqb x) l.

(** The step taken and the lines printed before the handler, if any, is
    called. *)
Definition main_iteration (user_input save_file : string) : step * list string :=
  if member (Str.lower user_input) end_words
  then save_confirmation save_file
  else
    let '((command, data), printed) := command_parser (Str.lower user_input) in
    match command, data with
    | Some c, Some d => (Call c d, printed)
    | _, _ => (Skip, printed)
    end.

(** * Vocabulary of the properties *)

(** No keyword of [items] is a prefix of [user_input]. *)
Definition no_prefix (items : list (Cmd.t * string)) (user_input : string) : Prop :=
  forall p, In p items -> Str.startswith user_input (snd p) = false.

(** [(command, key_word)] is the first item of [items] whose keyword is a
    prefix of [user_input]. *)
Definition first_prefix (items : list (Cmd.t * string)) (user_input : string)
  (command : Cmd.t) (key_word : string) : Prop :=
  exists before after,
    items = (before ++ (command, key_word) :: after)%list
    /\ no_prefix before user_input
    /\ Str.startswith user_input key_word = true.

(** The argument list as the specification describes it: the leading keyword
    cut off, the rest trimmed and split on single spaces. *)
Definition leading_keyword_stripped (user_input key_word : string) : list string :=
  Str.split (Str.strip (Str.drop (String.length key_word) user_input)) " ".

(** [key_word] has the highest ratio to [user_input] among the keywords of
    [items], and is the earliest keyword that has it. *)
Definition best_keyword (items : list (Cmd.t * string)) (user_input key_word : string)
  : Prop :=
  exists before command after,
    items = (before ++ (command, key_word) :: after)%list
    /\ (forall p, In p before ->
          (difflib.ratio user_input (snd p) < difflib.ratio user_input key_word)%Q)
    /\ (forall p, In p after ->
          (difflib.ratio user_input (snd p) <= difflib.ratio user_input key_word)%Q).

(** Twelve numeric characters that start with 380 and are not all digits:
    380 and nine times the fraction one half, U+00BD. *)
Definition one_half : ascii := ascii_of_N 189.

Definition phone_of_fractions : string :=
  "380" ++ string_of_list_ascii (repeat one_half 9).

(** A calendar date, and its text "DD-MM-YYYY": two digits, two digits, four
    digits. *)
Definition is_date (x : datetime.date) : Prop :=
  1 <= datetime.year x <= 9999
  /\ 1 <= datetime.month x <= 12
  /\ 1 <= datetime.day x <= datetime.days_in_month (datetime.year x) (datetime.month x).

Definition four_digits (n : Z) : string :=
  if n <? 10 then "000" ++ Str.of_int n
  else if n <? 100 then "00" ++ Str.of_int n
  else if n <? 1000 then "0" ++ Str.of_int n
  else Str.of_int n.

Definition DD_MM_YYYY (x : datetime.date) : string :=
  datetime.two_digits (datetime.day x) ++ "-"
  ++ datetime.two_digits (datetime.month x) ++ "-"
  ++ four_digits (datetime.year x).

(** Sample data, built with the operations of the program: a contact with
    two phones, a contact born on a leap day, and the books that hold them. *)
Definition ann : Record_.t :=
  fst (Record_.add_phone
         (Record_.init (Name.make "ann") (Some (Phone.make "380111111111")))
         (Phone.make "380222222222")).

Definition ann_book : AddressBook.t := AddressBook.add_record [] ann.

Definition leap_day : datetime.date := datetime.mkdate 2020 2 29.

Definition leo : Record_.t :=
  Record_.add_birthday (Record_.init (Name.make "leo") None) (Birthday.make leap_day).

Definition leo_book : AddressBook.t := AddressBook.add_record [] leo.

Definition first_of_june_2023 : datetime.date := datetime.mkdate 2023 6 1.

(** The exceptions the decorator turns into a returned string. *)
Definition caught (e : exn) : Prop :=
  match e with
  | IndexError | KeyError | TypeError | ValueError (_ :: _) => True
  | ValueError [] | EOFError => False
  end.

(** The lines one record adds to the result of a search: its line once when
    its name contains the lowered text, and otherwise its line once for each
    of its phones that contains it. *)
Definition record_lines (data : string) (record : Record_.t) : string :=
  if Str.contains (Str.lower data) (Str.lower (Name.str (Record_.name record)))
  then AddressBook.found_line record
  else
    String.concat ""
      (map (fun ph : Phone.t =>
              if Str.contains (Str.lower data) (Phone.str ph)
              then AddressBook.found_line record else "")
         (Record_.phones record)).

(** The message [change] returns on success. *)
Definition you_just_changed (name new_n : string) : string :=
  "You just changed number for contact '" ++ name ++ "'. New number is '" ++ new_n ++ "'".

(** A contact whose birthday falls on the first of June. *)
Definition june : Record_.t :=
  Record_.add_birthday (Record_.init (Name.make "june") None)
    (Birthday.make (datetime.mkdate 2000 6 1)).

(** The year-999 date whose text is "01-01-0999". *)
Definition new_year_999 : datetime.date := datetime.mkdate 999 1 1.

(** [all_from n lo p]: [p] holds of the [n] integers from [lo] on. *)
Fixpoint all_from (n : nat) (lo : Z) (p : Z -> bool) : bool :=
  match n with
  | O => true
  | S k => p lo && all_from k (lo + 1) p
  end.

(** The pattern of the year reads the four digits of [y] back as [y]. *)
Definition year_ok (y : Z) : bool :=
  match datetime.regex_Y (four_digits y) with
  | Some (v, EmptyString) => v =? y
  | _ => false
  end.

(** The block [(i, j, k)] lies inside the spans [a[alo:ahi]] and
    [b[blo:bhi]]. *)
Definition inside (alo ahi blo bhi : Z) (m : difflib.block) : Prop :=
  alo <= fst (fst m) /\ blo <= snd (fst m) /\ 0 <= snd m
  /\ fst (fst m) + snd m <= ahi /\ snd (fst m) + snd m <= bhi.

(** An entry [j2len[j] = k] at the start of round [i]: a match of length [k]
    that ends at [b[j]] and started neither before [alo] nor before [blo]. *)
Definition entry_ok (alo blo bhi i : Z) (e : Z * Z) : Prop :=
  1 <= snd e <= i - alo /\ snd e <= fst e - blo + 1 /\ fst e < bhi.

Definition span_ok (sp : difflib.span) : Prop :=
  let '(alo, ahi, blo, bhi) := sp in alo <= ahi /\ blo <= bhi.

(** What a queue of spans can still cost [blocks_loop]: for each span one
    round, and two more for each element of [a] it covers. *)
Definition weight (queue : list difflib.span) : Z :=
  fold_right
    (fun (sp : difflib.span) acc =>
       let '(alo, ahi, _, _) := sp in 2 * (ahi - alo) + 1 + acc)
    0 queue.

(** The conditions of the [while] loops that grow a block. *)
Definition can_grow_down (junk : bool) (a b : list ascii) (alo blo : Z)
  (m : difflib.block) : bool :=
  let '(besti, bestj, bestsize) := m in
  (besti >? alo) && (bestj >? blo)
  && Bool.eqb (difflib.isbjunk (difflib.elt b (bestj - 1))) junk
  && Ascii.eqb (difflib.elt a (besti - 1)) (difflib.elt b (bestj - 1)).

Definition can_grow_up (junk : bool) (a b : list ascii) (ahi bhi : Z)
  (m : difflib.block) : bool :=
  let '(besti, bestj, bestsize) := m in
  (besti + bestsize <? ahi) && (bestj + bestsize <? bhi)
  && Bool.eqb (difflib.isbjunk (difflib.elt b (bestj + bestsize))) junk
  && Ascii.eqb (difflib.elt a (besti + bestsize)) (difflib.elt b (bestj + bestsize)).

(** ** Vocabulary of the further properties *)

(** The dict that [AddressBook] wraps: no key twice, and every record stored
    under the value of its own name. *)
Definition book_ok (book : AddressBook.t) : Prop :=
  NoDup (map fst book)
  /\ Forall (fun kv : string * Record_.t =>
               fst kv = Name.value (Record_.name (snd kv))) book.

(** A character, and a text, that lower-casing leaves as it is. *)
Definition lower_char (c : ascii) : bool := Ascii.eqb (Str.char_lower c) c.

Definition lowered (s : string) : Prop := Str.lower s = s.

(** A result that the decorator turns into a returned string. *)
Definition safe {A : Type} (r : res A) : Prop :=
  match r with
  | Ret _ => True
  | Raise e => caught e
  end.

(** The decorated handlers whose state is the book. *)
Definition decorated_handlers (today : datetime.date) : list handler :=
  [ hello; change; phone; days_to_birthday today; show_all; delete_contact;
    delete_phone; add_birthday today; add_email ].

(** One of the three answers the loop of [add_phone] accepts. *)
Definition is_answer (line : string) : bool :=
  String.eqb line "1" || String.eqb line "2" || String.eqb line "3".

(** Every line of the console was read. *)
Definition console_pending_empty (io : console) : Prop := pending io = [].

(** More sample data: a contact with a birthday and an email, and a console
    with a wrong answer before the right one. *)
Definition eve : Record_.t :=
  Record_.add_email
    (Record_.add_birthday
       (Record_.init (Name.make "eve") (Some (Phone.make "380444444444")))
       (Birthday.make (datetime.mkdate 1990 5 17)))
    (Email.make "eve@mail.com").

Definition eve_book : AddressBook.t := AddressBook.add_record ann_book eve.

Definition quiet : console := mkconsole [] [].


(** * Properties of the dispatcher *)

Lemma Qgtb_true (a r : Q) : Qgtb a r = true <-> (r < a)%Q.
Proof.
  unfold Qgtb. rewrite negb_true_iff. split.
  - intros H. apply Qnot_le_lt. intros Hle.
    apply Qle_bool_iff in Hle. congruence.
  - intros H. destruct (Qle_bool a r) eqn:E; [|reflexivity].
    apply Qle_bool_iff in E. exfalso. exact (Qlt_not_le _ _ H E).
Qed.

Lemma Qgtb_false (a r : Q) : Qgtb a r = false <-> (a <= r)%Q.
Proof.
  unfold Qgtb. rewrite negb_false_iff. apply Qle_bool_iff.
Qed.

Lemma no_prefix_cons command key_word items user_input :
  no_prefix ((command, key_word) :: items) user_input <->
  Str.startswith user_input key_word = false /\ no_prefix items user_input.
Proof.
  unfold no_prefix. split.
  - intros H. split.
    + apply (H (command, key_word)). left. reflexivity.
    + intros p Hp. apply H. right. exact Hp.
  - intros [H1 H2] p [<-|Hp]; [exact H1 | apply H2, Hp].
Qed.

(** On the first keyword that is a prefix of the input the loop returns its
    handler, and the input with every occurrence of the keyword removed,
    trimmed and split; nothing is printed. *)
Lemma command_loop_first_prefix items user_input command key_word ratio possible :
  first_prefix items user_input command key_word ->
  command_loop items user_input ratio possible =
  ((Some command,
    Some (Str.split (Str.strip (Str.replace user_input key_word "")) " ")), []).
Proof.
  intros (before & after & -> & Hno & Hyes).
  revert ratio possible.
  induction before as [|[c k] before IH]; intros ratio possible; simpl.
  - rewrite Hyes. reflexivity.
  - apply no_prefix_cons in Hno. destruct Hno as [Hk Hno].
    rewrite Hk. destruct (Qgtb _ _); apply IH; exact Hno.
Qed.

(** A keyword that is a prefix of the input gives a first such keyword. *)
Lemma first_prefix_exists items user_input :
  (exists p, In p items /\ Str.startswith user_input (snd p) = true) ->
  exists command key_word, first_prefix items user_input command key_word.
Proof.
  induction items as [|[c k] items IH]; intros (p & Hin & Hp).
  - destruct Hin.
  - destruct (Str.startswith user_input k) eqn:Hk.
    + exists c, k, [], items. repeat split; auto.
      intros q [].
    + destruct Hin as [<-|Hin]; [simpl in Hp; congruence|].
      destruct IH as (c' & k' & before & after & -> & Hno & Hyes).
      { exists p. split; assumption. }
      exists c', k', ((c, k) :: before)%list, after. repeat split; auto.
      apply no_prefix_cons. split; assumption.
Qed.

(** The handler half of the dispatch rule: when some keyword is a prefix of
    the line, the parser returns the handler of the first one in table order
    and the arguments computed from that keyword. *)
Lemma command_parser_first_prefix user_input :
  (exists p, In p COMMANDS /\ Str.startswith user_input (snd p) = true) ->
  exists command key_word,
    first_prefix COMMANDS user_input command key_word
    /\ command_parser user_input =
       ((Some command,
         Some (Str.split (Str.strip (Str.replace user_input key_word "")) " ")), []).
Proof.
  intros H. destruct (first_prefix_exists _ _ H) as (c & k & Hfirst).
  exists c, k. split; [exact Hfirst|].
  apply command_loop_first_prefix. exact Hfirst.
Qed.

(** C1.  On the line "show showman" the first keyword that is a prefix is
    "show", and the parser returns its handler with the single argument
    "man": [replace] removed the keyword from inside the name as well, where
    the rule of the specification (cut the leading keyword only) gives the
    argument "showman". *)
Theorem command_parser_removes_inner_keyword :
  first_prefix COMMANDS "show showman" Cmd.phone "show"
  /\ command_parser "show showman" = ((Some Cmd.phone, Some ["man"]), [])
  /\ leading_keyword_stripped "show showman" "show" = ["showman"].
Proof.
  split; [|split; reflexivity].
  exists (firstn 8 COMMANDS), (skipn 9 COMMANDS).
  split; [reflexivity|]. split; [|reflexivity].
  intros p Hp. simpl in Hp.
  repeat (destruct Hp as [<-|Hp]; [reflexivity|]). destruct Hp.
Qed.

(** The loop without a prefix match: it prints one suggestion, which is
    either the [possible_command] it started from, no keyword having a ratio
    above the starting [ratio], or the earliest keyword of highest ratio. *)
Lemma command_loop_no_prefix items user_input :
  no_prefix items user_input ->
  forall ratio possible,
  exists s,
    command_loop items user_input ratio possible = ((None, None), [maybe_you_meant s])
    /\ ((s = possible
         /\ forall p, In p items -> (difflib.ratio user_input (snd p) <= ratio)%Q)
        \/ (best_keyword items user_input s
            /\ (ratio < difflib.ratio user_input s)%Q)).
Proof.
  induction items as [|[c k] items IH]; intros Hno ratio possible.
  - exists possible. split; [reflexivity|]. left. split; [reflexivity|].
    intros p [].
  - apply no_prefix_cons in Hno. destruct Hno as [Hk Hno].
    simpl. rewrite Hk.
    destruct (Qgtb (difflib.ratio user_input k) ratio) eqn:Hgt.
    + apply Qgtb_true in Hgt.
      destruct (IH Hno (difflib.ratio user_input k) k) as (s & -> & Hs).
      exists s. split; [reflexivity|]. right.
      destruct Hs as [[-> Hle] | [(before & c' & after & -> & Hlt & Hle) Hbest]].
      * split; [|exact Hgt].
        exists [], c, items. repeat split; auto. intros p [].
      * split; [|eapply Qlt_trans; eassumption].
        exists ((c, k) :: before)%list, c', after. repeat split; auto.
        intros p [<-|Hp]; [exact Hbest | apply Hlt, Hp].
    + apply Qgtb_false in Hgt.
      destruct (IH Hno ratio possible) as (s & -> & Hs).
      exists s. split; [reflexivity|].
      destruct Hs as [[-> Hle] | [(before & c' & after & -> & Hlt & Hle) Hbest]].
      * left. split; [reflexivity|].
        intros p [<-|Hp]; [exact Hgt | apply Hle, Hp].
      * right. split; [|exact Hbest].
        exists ((c, k) :: before)%list, c', after. repeat split; auto.
        intros p [<-|Hp]; [|apply Hlt, Hp].
        eapply Qle_lt_trans; eassumption.
Qed.

Lemma length_append (s1 s2 : string) :
  String.length (s1 ++ s2) = (String.length s1 + String.length s2)%nat.
Proof.
  induction s1 as [|c s1 IH]; simpl; [reflexivity | rewrite IH; reflexivity].
Qed.

Lemma maybe_you_meant_inj s1 s2 :
  maybe_you_meant s1 = maybe_you_meant s2 -> s1 = s2.
Proof.
  unfold maybe_you_meant. intros H.
  assert (Happ : forall p a b, (p ++ a = p ++ b)%string -> a = b).
  { induction p as [|ch p IHp]; simpl; intros a b E; [exact E|].
    injection E as E. apply IHp, E. }
  apply Happ in H.
  revert s2 H. induction s1 as [|c1 s1 IH]; intros [|c2 s2] H.
  - reflexivity.
  - exfalso. apply (f_equal String.length) in H. simpl in H.
    rewrite length_append in H. simpl in H. lia.
  - exfalso. apply (f_equal String.length) in H. simpl in H.
    rewrite length_append in H. simpl in H. lia.
  - simpl in H. injection H as -> H. f_equal. apply IH, H.
Qed.

(** C2, as stated, fails on the line "zzz": no keyword is a prefix of it and
    it shares no character with any keyword, so every ratio is 0, the test
    [a > ratio] never holds, and the suggestion printed is the initial empty
    string, which is not a keyword of the table. *)
Lemma suggestion_for_zzz_is_no_keyword :
  no_prefix COMMANDS "zzz"
  /\ ~ (exists s,
          command_parser "zzz" = ((None, None), [maybe_you_meant s])
          /\ best_keyword COMMANDS "zzz" s).
Proof.
  split.
  - intros p Hp. simpl in Hp.
    repeat (destruct Hp as [<-|Hp]; [reflexivity|]). destruct Hp.
  - intros (s & Hs & (before & c & after & Hitems & _)).
    assert (E : command_parser "zzz" = ((None, None), [maybe_you_meant ""]))
      by (vm_compute; reflexivity).
    rewrite E in Hs.
    assert (Hm : maybe_you_meant "" = maybe_you_meant s) by congruence.
    apply maybe_you_meant_inj in Hm. subst s.
    assert (Hin : In (c, "") COMMANDS).
    { rewrite Hitems. apply in_or_app. right. left. reflexivity. }
    simpl in Hin.
    repeat (destruct Hin as [Hin|Hin]; [discriminate Hin|]). destruct Hin.
Qed.

(** C2, amended.  When no keyword is a prefix of the line, the parser returns
    the pair [(None, None)] and prints one suggestion: the keyword of highest
    ratio to the line, the earliest of them in table order, when that ratio
    is positive; the empty string when no keyword has a positive ratio.  The
    parser being a function of the line and the table, the result is the same
    on every run. *)
Theorem command_parser_suggestion user_input :
  no_prefix COMMANDS user_input ->
  exists s,
    command_parser user_input = ((None, None), [maybe_you_meant s])
    /\ ((best_keyword COMMANDS user_input s
         /\ (0 < difflib.ratio user_input s)%Q)
        \/ (s = ""
            /\ forall p, In p COMMANDS -> (difflib.ratio user_input (snd p) <= 0)%Q)).
Proof.
  intros Hno.
  destruct (command_loop_no_prefix COMMANDS user_input Hno 0%Q "") as (s & Hs & H).
  exists s. split; [exact Hs|].
  destruct H as [H|H]; [right | left]; exact H.
Qed.

Lemma command_parser_suggestion_witness :
  exists s,
    command_parser "ad contct" = ((None, None), [maybe_you_meant s])
    /\ ((best_keyword COMMANDS "ad contct" s
         /\ (0 < difflib.ratio "ad contct" s)%Q)
        \/ (s = ""
            /\ forall p, In p COMMANDS -> (difflib.ratio "ad contct" (snd p) <= 0)%Q)).
Proof.
  apply command_parser_suggestion.
  intros p Hp. simpl in Hp.
  repeat (destruct Hp as [<-|Hp]; [reflexivity|]). destruct Hp.
Defined.

(** * Properties of [difflib]: [get_matching_blocks] never runs out of fuel *)

Section FindLongestMatch.

Variables (a b : list ascii) (alo ahi blo bhi : Z).
Hypothesis Ha : alo <= ahi.
Hypothesis Hb : blo <= bhi.

Lemma j2len_get_cases (j2len : list (Z * Z)) j :
  difflib.j2len_get j2len j = 0 \/ In (j, difflib.j2len_get j2len j) j2len.
Proof.
  induction j2len as [|[j' k] j2len IH]; simpl; [left; reflexivity|].
  destruct (Z.eqb_spec j' j) as [->|Hne].
  - right. left. reflexivity.
  - destruct IH as [IH|IH]; [left | right; right]; exact IH.
Qed.

Lemma scan_b_inv i j2len :
  alo <= i < ahi ->
  (forall e, In e j2len -> entry_ok alo blo bhi i e) ->
  forall js newj2len best,
    (forall e, In e newj2len -> entry_ok alo blo bhi (i + 1) e) ->
    inside alo ahi blo bhi best ->
    (forall e, In e (fst (difflib.scan_b js blo bhi i j2len newj2len best)) ->
       entry_ok alo blo bhi (i + 1) e)
    /\ inside alo ahi blo bhi (snd (difflib.scan_b js blo bhi i j2len newj2len best)).
Proof.
  intros Hi Hold. induction js as [|j js IH]; intros newj2len best Hnew Hbest.
  - simpl. split; assumption.
  - simpl. destruct (Z.ltb_spec j blo) as [Hlo|Hlo]; [apply IH; assumption|].
    destruct (Z.geb_spec j bhi) as [Hhi|Hhi]; [simpl; split; assumption|].
    destruct best as [[bi bj] bs].
    assert (Hk : 1 <= difflib.j2len_get j2len (j - 1) + 1 <= i + 1 - alo
                 /\ difflib.j2len_get j2len (j - 1) + 1 <= j - blo + 1).
    { destruct (j2len_get_cases j2len (j - 1)) as [->|Hin]; [lia|].
      apply Hold in Hin. unfold entry_ok in Hin. simpl in Hin. lia. }
    apply IH.
    + intros e [<-|He]; [|apply Hnew, He].
      unfold entry_ok. simpl. lia.
    + destruct (difflib.j2len_get j2len (j - 1) + 1 >? bs); [|exact Hbest].
      unfold inside. simpl. lia.
Qed.

Lemma scan_a_rounds len : forall s st,
  (Z.of_nat s + Z.of_nat len <= ahi - alo) ->
  (forall e, In e (fst st) -> entry_ok alo blo bhi (alo + Z.of_nat s) e) ->
  inside alo ahi blo bhi (snd st) ->
  inside alo ahi blo bhi
    (snd (fold_left
            (fun (st : list (Z * Z) * difflib.block) (i : Z) =>
               difflib.scan_b (difflib.b2j_get b (difflib.elt a i)) blo bhi i
                 (fst st) [] (snd st))
            (map (fun n => alo + Z.of_nat n) (seq s len)) st)).
Proof.
  induction len as [|len IH]; intros s st Hlen Hentries Hbest; [exact Hbest|].
  cbn [seq map fold_left].
  destruct (scan_b_inv (alo + Z.of_nat s) (fst st) ltac:(lia) Hentries
              (difflib.b2j_get b (difflib.elt a (alo + Z.of_nat s))) [] (snd st)
              ltac:(intros e []) Hbest) as [Hentries' Hbest'].
  apply IH.
  - lia.
  - intros e He. replace (alo + Z.of_nat (S s)) with (alo + Z.of_nat s + 1) by lia.
    apply Hentries', He.
  - exact Hbest'.
Qed.

Lemma scan_a_inside :
  inside alo ahi blo bhi (snd (difflib.scan_a a b alo ahi blo bhi)).
Proof.
  unfold difflib.scan_a, difflib.range. apply scan_a_rounds.
  - simpl. lia.
  - intros e [].
  - unfold inside. simpl. lia.
Qed.

Lemma grow_down_inside n junk : forall m,
  inside alo ahi blo bhi m ->
  inside alo ahi blo bhi (difflib.grow_down n junk a b alo blo m).
Proof.
  induction n as [|n IH]; intros [[bi bj] bs] Hm; [exact Hm|].
  simpl.
  destruct (Z.gtb_spec bi alo) as [Hi|Hi]; simpl; [|exact Hm].
  destruct (Z.gtb_spec bj blo) as [Hj|Hj]; simpl; [|exact Hm].
  destruct (_ && _); [|exact Hm].
  apply IH. unfold inside in *. simpl in *. lia.
Qed.

Lemma grow_up_inside n junk : forall m,
  inside alo ahi blo bhi m ->
  inside alo ahi blo bhi (difflib.grow_up n junk a b ahi bhi m).
Proof.
  induction n as [|n IH]; intros [[bi bj] bs] Hm; [exact Hm|].
  simpl.
  destruct (Z.ltb_spec (bi + bs) ahi) as [Hi|Hi]; simpl; [|exact Hm].
  destruct (Z.ltb_spec (bj + bs) bhi) as [Hj|Hj]; simpl; [|exact Hm].
  destruct (_ && _); [|exact Hm].
  apply IH. unfold inside in *. simpl in *. lia.
Qed.

(** The bound on the rounds of a growing loop is never what stops it: at the
    block returned the condition of the [while] is false. *)
Lemma grow_down_stops junk n : forall m,
  (difflib.room_down alo m <= n)%nat ->
  can_grow_down junk a b alo blo (difflib.grow_down n junk a b alo blo m) = false.
Proof.
  induction n as [|n IH]; intros [[bi bj] bs] Hn.
  - simpl in *. replace (bi >? alo) with false by lia. reflexivity.
  - cbn [difflib.grow_down].
    match goal with |- context [if ?c then _ else _] => destruct c eqn:Hc end.
    + apply IH. simpl in *.
      apply andb_prop in Hc. destruct Hc as [Hc _].
      apply andb_prop in Hc. destruct Hc as [Hc _].
      apply andb_prop in Hc. destruct Hc as [Hc _]. lia.
    + exact Hc.
Qed.

Lemma grow_up_stops junk n : forall m,
  (difflib.room_up ahi m <= n)%nat ->
  can_grow_up junk a b ahi bhi (difflib.grow_up n junk a b ahi bhi m) = false.
Proof.
  induction n as [|n IH]; intros [[bi bj] bs] Hn.
  - simpl in *. replace (bi + bs <? ahi) with false by lia. reflexivity.
  - cbn [difflib.grow_up].
    match goal with |- context [if ?c then _ else _] => destruct c eqn:Hc end.
    + apply IH. simpl in *.
      apply andb_prop in Hc. destruct Hc as [Hc _].
      apply andb_prop in Hc. destruct Hc as [Hc _].
      apply andb_prop in Hc. destruct Hc as [Hc _]. lia.
    + exact Hc.
Qed.

(** The block [find_longest_match] returns lies inside the two spans. *)
Lemma find_longest_match_inside :
  inside alo ahi blo bhi (difflib.find_longest_match a b alo ahi blo bhi).
Proof.
  unfold difflib.find_longest_match.
  apply grow_up_inside, grow_down_inside, grow_up_inside, grow_down_inside.
  exact scan_a_inside.
Qed.

End FindLongestMatch.

Lemma weight_nonneg queue : Forall span_ok queue -> 0 <= weight queue.
Proof.
  induction 1 as [|[[[alo ahi] blo] bhi] queue Hsp Hq IH]; [simpl; lia|].
  change (weight ((alo, ahi, blo, bhi) :: queue))
    with (2 * (ahi - alo) + 1 + weight queue).
  destruct Hsp as [Ha Hb]. lia.
Qed.

Lemma blocks_loop_enough fuel a b : forall queue blocks,
  Forall span_ok queue ->
  weight queue <= Z.of_nat fuel ->
  difflib.blocks_loop fuel a b queue blocks <> None.
Proof.
  induction fuel as [|fuel IH]; intros queue blocks Hok Hw;
    (destruct queue as [|[[[alo ahi] blo] bhi] queue]; [discriminate|]);
    inversion Hok as [|sp q Hsp Hq]; subst; simpl in Hsp; destruct Hsp as [Ha Hb];
    pose proof (weight_nonneg queue Hq) as Hnn;
    change (weight ((alo, ahi, blo, bhi) :: queue))
      with (2 * (ahi - alo) + 1 + weight queue) in Hw.
  - exfalso. lia.
  - cbn [difflib.blocks_loop].
    pose proof (find_longest_match_inside a b alo ahi blo bhi Ha Hb) as Hin.
    destruct (difflib.find_longest_match a b alo ahi blo bhi) as [[i j] k].
    unfold inside in Hin. simpl in Hin.
    destruct (Z.eqb_spec k 0) as [Hk|Hk]; [apply IH; [exact Hq | lia]|].
    apply IH.
    + destruct ((i + k <? ahi) && (j + k <? bhi)); destruct ((alo <? i) && (blo <? j));
        repeat (constructor; [simpl; lia|]); exact Hq.
    + destruct ((i + k <? ahi) && (j + k <? bhi)); destruct ((alo <? i) && (blo <? j));
        cbn [weight fold_right]; fold (weight queue); lia.
Qed.

(** With the fuel it is given, the loop of [get_matching_blocks] empties its
    queue: the default of [get_matching_blocks] is never taken, and [ratio]
    is computed from the blocks the loop found. *)
Lemma blocks_loop_total a b :
  difflib.blocks_loop (difflib.enough_fuel a) a b
    [(0, Z.of_nat (List.length a), 0, Z.of_nat (List.length b))] [] <> None.
Proof.
  apply blocks_loop_enough.
  - constructor; [simpl; lia | constructor].
  - unfold difflib.enough_fuel. cbn [weight fold_right]. lia.
Qed.

(** * Properties of the fields and of [Record] *)

Lemma Phone_init_value value p : Phone.init value = Ret p -> p = Phone.make value.
Proof.
  unfold Phone.init.
  destruct (negb (Str.len value =? 12)); [discriminate|].
  destruct (negb (Str.startswith value "380")); [discriminate|].
  destruct (negb (Str.isnumeric value)); [discriminate|].
  intros H. injection H as <-. reflexivity.
Qed.

(** What the setter of [Phone.value] checks: [Phone(value)] returns a phone,
    which then holds [value], exactly when [value] has 12 characters, starts
    with 380 and is numeric; otherwise it raises and there is no phone. *)
Lemma Phone_init_iff value :
  Phone.init value = Ret (Phone.make value) <->
  Str.len value = 12 /\ Str.startswith value "380" = true /\ Str.isnumeric value = true.
Proof.
  unfold Phone.init. split.
  - destruct (Str.len value =? 12) eqn:Hl; simpl; [|discriminate].
    destruct (Str.startswith value "380"); simpl; [|discriminate].
    destruct (Str.isnumeric value); simpl; [|discriminate].
    intros _. apply Z.eqb_eq in Hl. auto.
  - intros (Hl & -> & ->). apply Z.eqb_eq in Hl. rewrite Hl. reflexivity.
Qed.

Lemma Phone_init_raises value :
  ~ (Str.len value = 12 /\ Str.startswith value "380" = true
     /\ Str.isnumeric value = true) ->
  exists m, Phone.init value = Raise (ValueError [m]).
Proof.
  intros H. unfold Phone.init.
  destruct (Str.len value =? 12) eqn:Hl; simpl; [|eauto].
  destruct (Str.startswith value "380") eqn:Hs; simpl; [|eauto].
  destruct (Str.isnumeric value) eqn:Hn; simpl; [|eauto].
  exfalso. apply H. apply Z.eqb_eq in Hl. auto.
Qed.

(** C3.  [Phone] accepts the twelve characters 380 and nine times the
    fraction one half: the text has length 12, starts with 380 and is
    numeric, which is what the setter tests, and it is not a string of
    digits, which is what the claim and the setter's own message ask for. *)
Theorem Phone_accepts_fractions :
  Phone.init phone_of_fractions = Ret (Phone.make phone_of_fractions)
  /\ Str.len phone_of_fractions = 12
  /\ Str.startswith phone_of_fractions "380" = true
  /\ Str.isnumeric phone_of_fractions = true
  /\ Str.isdigit phone_of_fractions = false.
Proof.
  repeat split; reflexivity.
Qed.

(** C4.  On a record without phones [change] gives no message: the loop body
    never runs, the function falls off its end, and the caller gets [None]
    where the claim, the other paths of [change] and the sibling
    [remove_phone] give the message that names the phone. *)
Lemma change_without_phones_returns_none :
  Record_.phones leo = []
  /\ Record_.change leo (Phone.make "380111111111") (Phone.make "380222222222")
     = (leo, None)
  /\ snd (Record_.change leo (Phone.make "380111111111") (Phone.make "380222222222"))
     <> Some "Phone number '380111111111' was not found in the record".
Proof.
  repeat split. simpl. discriminate.
Qed.

(** [change] looks at the first phone only.  Without phones it
    returns [None] and leaves the record as it is.  When the first phone
    equals [old_phone], that phone is removed, [new_phone] is appended at the
    end of the list, and the confirmation is returned.  When the first phone
    differs from [old_phone], whatever the later phones are, the record is
    left as it is and the message that names [old_phone] is returned. *)
Theorem Record_change_first_phone_only self old_phone new_phone :
  (Record_.phones self = [] ->
   Record_.change self old_phone new_phone = (self, None))
  /\ (forall first rest,
        Record_.phones self = first :: rest ->
        Phone.value first = Phone.value old_phone ->
        Record_.change self old_phone new_phone =
        (Record_.set_phones self (rest ++ [new_phone])%list,
         Some ("Phone " ++ Phone.value old_phone ++ " was successfully changed to "
               ++ Phone.value new_phone)))
  /\ (forall first rest,
        Record_.phones self = first :: rest ->
        Phone.value first <> Phone.value old_phone ->
        Record_.change self old_phone new_phone =
        (self,
         Some ("Phone number '" ++ Phone.value old_phone
               ++ "' was not found in the record"))).
Proof.
  unfold Record_.change. repeat split.
  - intros ->. reflexivity.
  - intros first rest -> Heq.
    apply String.eqb_eq in Heq. rewrite Heq. reflexivity.
  - intros first rest -> Hneq.
    apply String.eqb_neq in Hneq. rewrite Hneq. reflexivity.
Qed.

(** At [ann], whose second phone is the one asked for: not found. *)
Lemma Record_change_first_phone_only_witness :
  Record_.change ann (Phone.make "380222222222") (Phone.make "380333333333")
  = (ann, Some "Phone number '380222222222' was not found in the record").
Proof.
  apply (proj2 (proj2 (Record_change_first_phone_only ann
                         (Phone.make "380222222222") (Phone.make "380333333333")))
           (Phone.make "380111111111") [Phone.make "380222222222"]).
  - reflexivity.
  - simpl. discriminate.
Defined.

(** The record [leo] is one the program makes: the contact is added with a
    phone, given a birthday, and its one phone is deleted.  The handler
    [change] then reports a change that [Record.change], returning [None],
    did not make. *)
Lemma record_without_phones_is_reachable :
  let book1 := fst (snd (add_phone ["leo"; "380111111111"] ([], quiet))) in
  let book2 := snd (add_birthday first_of_june_2023 ["leo"; "29-02-2020"] book1) in
  let book3 := snd (delete_phone ["leo"; "380111111111"] book2) in
  book3 = leo_book
  /\ change ["leo"; "380111111111"; "380222222222"] leo_book
     = (Ret "You just changed number for contact 'leo'. New number is '380222222222'",
        leo_book).
Proof.
  split; reflexivity.
Qed.

(** On the same record the sibling [remove_phone] does give its message. *)
Lemma remove_phone_without_phones :
  Record_.remove_phone leo "380111111111"
  = Ret (leo, "Number 380111111111 not found").
Proof.
  reflexivity.
Qed.

(** * Properties of the handlers *)

(** The decorator: a function that returns keeps its result, and each of the
    four kinds of exception it names becomes a returned string; the book the
    function left is kept. *)
Lemma error_handler_returns func args book r :
  fst (func args book) = Ret r ->
  error_handler func args book = (Ret r, snd (func args book)).
Proof.
  unfold error_handler. destruct (func args book) as [[a|e] book']; simpl.
  - intros H. injection H as ->. reflexivity.
  - discriminate.
Qed.

Lemma error_handler_catches func args book e :
  fst (func args book) = Raise e ->
  caught e ->
  exists r, error_handler func args book = (Ret r, snd (func args book)).
Proof.
  unfold error_handler. destruct (func args book) as [[a|e'] book']; simpl.
  - discriminate.
  - intros H. injection H as ->.
    destruct e as [|[|m eargs]| | |]; simpl; intros Hc;
      try contradiction; eexists; reflexivity.
Qed.

(** A [ValueError] raised without argument is not converted: reading
    [exception.args[0]] raises [IndexError] inside the [except] clause. *)
Lemma error_handler_bare_ValueError func args book :
  fst (func args book) = Raise (ValueError []) ->
  error_handler func args book = (Raise IndexError, snd (func args book)).
Proof.
  unfold error_handler. destruct (func args book) as [[a|e'] book']; simpl.
  - discriminate.
  - intros H. injection H as ->. reflexivity.
Qed.



Lemma split_not_empty s sep : Str.split s sep <> [].
Proof.
  unfold Str.split. generalize 0%nat, EmptyString.
  induction s as [|c s IH]; intros skip cur; cbn [Str.split_from]; [discriminate|].
  destruct skip as [|skip]; [|apply IH].
  destruct (Str.startswith (String c s) sep); [discriminate | apply IH].
Qed.

Lemma append_assoc (s1 s2 s3 : string) : ((s1 ++ s2) ++ s3 = s1 ++ (s2 ++ s3))%string.
Proof.
  induction s1 as [|c s1 IH]; simpl; [reflexivity | rewrite IH; reflexivity].
Qed.

Lemma append_empty_r (s : string) : (s ++ "")%string = s.
Proof.
  induction s as [|c s IH]; simpl; [reflexivity | rewrite IH; reflexivity].
Qed.

Lemma search_phones_lines data record phones result :
  AddressBook.search_phones data record phones result =
  (result ++
   String.concat ""
     (map (fun ph : Phone.t =>
             if Str.contains (Str.lower data) (Phone.str ph)
             then AddressBook.found_line record else "") phones))%string.
Proof.
  revert result. induction phones as [|ph phones IH]; intros result.
  - simpl. symmetry. apply append_empty_r.
  - cbn [AddressBook.search_phones map]. rewrite IH.
    assert (Hc : forall x l, String.concat "" (x :: l) = (x ++ String.concat "" l)%string).
    { intros x [|y l]; simpl; [symmetry; apply append_empty_r | reflexivity]. }
    rewrite Hc.
    destruct (Str.contains (Str.lower data) (Phone.str ph)).
    + apply append_assoc.
    + reflexivity.
Qed.

Lemma search_records_lines data records result :
  AddressBook.search_records data records result =
  (result ++ String.concat "" (map (record_lines data) records))%string.
Proof.
  revert result. induction records as [|r records IH]; intros result.
  - simpl. symmetry. apply append_empty_r.
  - cbn [AddressBook.search_records map]. rewrite IH.
    assert (Hc : forall x l, String.concat "" (x :: l) = (x ++ String.concat "" l)%string).
    { intros x [|y l]; simpl; [symmetry; apply append_empty_r | reflexivity]. }
    rewrite Hc. unfold record_lines.
    destruct (Str.contains (Str.lower data) (Str.lower (Name.str (Record_.name r)))).
    + apply append_assoc.
    + rewrite search_phones_lines. apply append_assoc.
Qed.

(** What a search returns: the lines of the records, in the order of the
    book. *)
Lemma search_in_file_lines book data :
  AddressBook.search_in_file book data =
  String.concat "" (map (record_lines data) (AddressBook.values book)).
Proof.
  unfold AddressBook.search_in_file. apply search_records_lines.
Qed.

(** A search that no record matches, by name or by phone, returns the empty
    string. *)
Lemma search_in_file_no_match book data :
  (forall record, In record (AddressBook.values book) ->
     Str.contains (Str.lower data) (Str.lower (Name.str (Record_.name record))) = false
     /\ forall ph, In ph (Record_.phones record) ->
          Str.contains (Str.lower data) (Phone.str ph) = false) ->
  AddressBook.search_in_file book data = "".
Proof.
  rewrite search_in_file_lines.
  induction (AddressBook.values book) as [|r records IH]; intros H; [reflexivity|].
  assert (Hr : record_lines data r = "").
  { destruct (H r (or_introl eq_refl)) as [Hn Hp]. unfold record_lines. rewrite Hn.
    induction (Record_.phones r) as [|ph phones IHp]; [reflexivity|].
    cbn [map]. rewrite (Hp ph (or_introl eq_refl)).
    destruct phones as [|ph' phones]; [reflexivity|].
    change (String.concat "" ("" :: ?x :: ?l)) with (String.concat "" (x :: l)).
    apply IHp. intros q Hq. apply Hp. right. exact Hq. }
  cbn [map]. rewrite Hr.
  destruct records as [|r' records]; [reflexivity|].
  change (String.concat "" ("" :: ?x :: ?l)) with (String.concat "" (x :: l)).
  apply IH. intros q Hq. apply H. right. exact Hq.
Qed.

(** C6.  In a book where [ann] has two phones, both of which contain "380",
    and a name that does not, the search for "380" returns her line twice,
    once for each phone. *)
Theorem search_repeats_a_record :
  search ["380"] ann_book
  = (Ret (AddressBook.found_line ann ++ AddressBook.found_line ann), ann_book)
  /\ AddressBook.found_line ann
     = "Name: ann Birthday: None Phone: 380111111111,380222222222" ++ Str.newline.
Proof.
  split; reflexivity.
Qed.

(** * Properties of the loop of [main] *)

(** A line that lower-cases to one of the four end words enters the save
    confirmation; the command table is not consulted. *)
Lemma end_word_asks_to_save user_input save_file :
  In (Str.lower user_input) end_words ->
  main_iteration user_input save_file = save_confirmation save_file.
Proof.
  intros H. unfold main_iteration.
  assert (Hm : member (Str.lower user_input) end_words = true).
  { unfold member. apply existsb_exists. exists (Str.lower user_input).
    split; [exact H | apply String.eqb_refl]. }
  rewrite Hm. reflexivity.
Qed.

(** A line that is no end word and that no keyword prefixes calls no
    handler. *)
Lemma unmatched_line_is_skipped user_input save_file :
  member (Str.lower user_input) end_words = false ->
  no_prefix COMMANDS (Str.lower user_input) ->
  fst (main_iteration user_input save_file) = Skip.
Proof.
  intros Hm Hno. unfold main_iteration, command_parser. rewrite Hm.
  destruct (command_loop_no_prefix COMMANDS _ Hno 0%Q "") as (s & -> & _).
  reflexivity.
Qed.

(** C9.  "good bye" is not among [end_words]: the line goes to the parser,
    no keyword is a prefix of it, a suggestion is printed and the iteration
    ends without the save confirmation. *)
Theorem good_bye_is_dispatched save_file :
  member (Str.lower "good bye") end_words = false
  /\ main_iteration "good bye" save_file
     = (Skip, ["Maybe you meant 'add birthday' ?"])
  /\ main_iteration "good bye" save_file <> save_confirmation save_file.
Proof.
  assert (E : main_iteration "good bye" save_file
              = (Skip, ["Maybe you meant 'add birthday' ?"]))
    by (vm_compute; reflexivity).
  split; [reflexivity|]. split; [exact E|].
  rewrite E. unfold save_confirmation.
  destruct (String.eqb save_file "y"); [discriminate|].
  destruct (String.eqb save_file "n"); discriminate.
Qed.

Lemma AddressBook_set_get (book : AddressBook.t) key record :
  AddressBook.get book key = Some record ->
  AddressBook.set book key record = book.
Proof.
  induction book as [|[k w] book IH]; simpl; [discriminate|].
  destruct (String.eqb k key).
  - intros H. injection H as ->. reflexivity.
  - intros H. rewrite (IH H). reflexivity.
Qed.

(** C10.  With a name and two texts that [Phone] accepts, whatever follows
    them in the argument tuple and whatever the book holds, [change] returns
    the message of success.  If the book has no contact of that name, or the
    contact's first phone is not the old number, the book is left as it was:
    nothing was changed, and what [Record.change] returned is not reported. *)
Theorem change_always_reports_success book name old_n new_n more :
  Phone.init old_n = Ret (Phone.make old_n) ->
  Phone.init new_n = Ret (Phone.make new_n) ->
  fst (change (name :: old_n :: new_n :: more) book) = Ret (you_just_changed name new_n)
  /\ (AddressBook.get book name = None ->
      snd (change (name :: old_n :: new_n :: more) book) = book)
  /\ (forall record,
        AddressBook.get book name = Some record ->
        (forall first rest,
           Record_.phones record = first :: rest -> Phone.value first <> old_n) ->
        snd (change (name :: old_n :: new_n :: more) book) = book).
Proof.
  intros Hold Hnew.
  assert (Hnum : Str.isnumeric new_n = true) by (apply Phone_init_iff in Hnew; tauto).
  unfold change, error_handler, item. simpl.
  rewrite Hold. simpl. rewrite Hnew. simpl. rewrite Hnum. simpl.
  split; [reflexivity|]. split.
  - intros Hget. unfold AddressBook.change_record. rewrite Hget. reflexivity.
  - intros record Hget Hfirst. unfold AddressBook.change_record. rewrite Hget.
    assert (Hsame : fst (Record_.change record (Phone.make old_n) (Phone.make new_n))
                    = record).
    { unfold Record_.change. destruct (Record_.phones record) as [|first rest] eqn:Hp.
      - reflexivity.
      - specialize (Hfirst first rest eq_refl). simpl.
        apply String.eqb_neq in Hfirst. rewrite Hfirst. reflexivity. }
    rewrite Hsame. apply AddressBook_set_get. exact Hget.
Qed.

(** At a name the book does not hold. *)
Lemma change_always_reports_success_witness :
  fst (change ["zed"; "380111111111"; "380333333333"] ann_book)
  = Ret (you_just_changed "zed" "380333333333")
  /\ (AddressBook.get ann_book "zed" = None ->
      snd (change ["zed"; "380111111111"; "380333333333"] ann_book) = ann_book)
  /\ (forall record,
        AddressBook.get ann_book "zed" = Some record ->
        (forall first rest,
           Record_.phones record = first :: rest -> Phone.value first <> "380111111111") ->
        snd (change ["zed"; "380111111111"; "380333333333"] ann_book) = ann_book).
Proof.
  apply (change_always_reports_success ann_book "zed" "380111111111" "380333333333" []);
    reflexivity.
Defined.

(** * Properties of [Birthday] *)

Lemma all_from_spec n : forall lo p,
  all_from n lo p = true ->
  forall z, lo <= z < lo + Z.of_nat n -> p z = true.
Proof.
  induction n as [|n IH]; intros lo p H z Hz.
  - simpl in Hz. lia.
  - simpl in H. apply andb_prop in H. destruct H as [H0 H].
    destruct (Z.eq_dec z lo) as [->|Hne]; [exact H0|].
    apply (IH (lo + 1) p H). lia.
Qed.

(** The day and the month on two digits are read back by the first
    alternative of the pattern that fits them, provided the rest of the
    pattern, [k], accepts what follows. *)
Lemma regex_d_two_digits {A : Type} d rest (k : Z -> string -> option A) r :
  1 <= d <= 31 ->
  k d rest = Some r ->
  datetime.first_match datetime.regex_d (datetime.two_digits d ++ rest) k = Some r.
Proof.
  intros Hd Hk.
  destruct d as [|p|p]; try lia.
  do 5 (try destruct p as [p|p|]); try lia; cbn; rewrite Hk; reflexivity.
Qed.

Lemma regex_m_two_digits {A : Type} m rest (k : Z -> string -> option A) r :
  1 <= m <= 12 ->
  k m rest = Some r ->
  datetime.first_match datetime.regex_m (datetime.two_digits m ++ rest) k = Some r.
Proof.
  intros Hm Hk.
  destruct m as [|p|p]; try lia.
  do 4 (try destruct p as [p|p|]); try lia; cbn; rewrite Hk; reflexivity.
Qed.

Lemma years_1_to_9999_ok : all_from (Z.to_nat 9999) 1 year_ok = true.
Proof.
  vm_compute. reflexivity.
Qed.

Lemma regex_Y_four_digits y :
  1 <= y <= 9999 ->
  datetime.regex_Y (four_digits y) = Some (y, "").
Proof.
  intros Hy.
  assert (Hin : 1 <= y < 1 + Z.of_nat (Z.to_nat 9999)) by (rewrite Z2Nat.id; lia).
  pose proof (all_from_spec _ _ _ years_1_to_9999_ok y Hin) as Hc.
  unfold year_ok in Hc.
  destruct (datetime.regex_Y (four_digits y)) as [[v [|c rest]]|]; try discriminate.
  apply Z.eqb_eq in Hc. subst v. reflexivity.
Qed.

Lemma new_is_date x :
  is_date x ->
  datetime.new (datetime.year x) (datetime.month x) (datetime.day x) = Ret x.
Proof.
  destruct x as [y m d]. unfold is_date, datetime.new. simpl.
  intros (Hy & Hm & Hd).
  replace ((y <? 1) || (y >? 9999)) with false by lia.
  replace ((m <? 1) || (m >? 12)) with false by lia.
  replace ((d <? 1) || (d >? datetime.days_in_month y m)) with false by lia.
  reflexivity.
Qed.

Lemma days_in_month_le_31 y m : datetime.days_in_month y m <= 31.
Proof.
  unfold datetime.days_in_month.
  destruct ((m =? 2) && datetime.is_leap y); [lia|].
  destruct (Z.to_nat m) as [|[|[|[|[|[|[|[|[|[|[|[|[|n]]]]]]]]]]]]]; simpl; try lia.
  destruct n; simpl; lia.
Qed.

(** The text of a calendar date is parsed back to that date. *)
Lemma strptime_DD_MM_YYYY x :
  is_date x -> datetime.strptime (DD_MM_YYYY x) = Some x.
Proof.
  intros Hx. pose proof Hx as (Hy & Hm & Hd).
  pose proof (days_in_month_le_31 (datetime.year x) (datetime.month x)) as H31.
  unfold datetime.strptime, datetime.regex_match, DD_MM_YYYY.
  erewrite regex_d_two_digits; [| lia |].
  2:{ cbn [append datetime.hyphen Str.between Str.code]. simpl datetime.hyphen.
      apply regex_m_two_digits; [lia|].
      simpl datetime.hyphen. rewrite regex_Y_four_digits by lia. reflexivity. }
  simpl. rewrite new_is_date by exact Hx. reflexivity.
Qed.

(** From year 1000 on, a date is rendered as its text. *)
Lemma strftime_DD_MM_YYYY x :
  1000 <= datetime.year x -> datetime.strftime x = DD_MM_YYYY x.
Proof.
  intros Hy. unfold datetime.strftime, DD_MM_YYYY, four_digits.
  replace (datetime.year x <? 10) with false by lia.
  replace (datetime.year x <? 100) with false by lia.
  replace (datetime.year x <? 1000) with false by lia.
  reflexivity.
Qed.

(** C7.  The text "01-01-0999" names a date long before the first of June
    2023: the birthday is built, and its text is "01-01-999", the year
    written without its leading zero, not the text it was built from. *)
Lemma Birthday_of_year_999_loses_a_digit :
  is_date new_year_999
  /\ DD_MM_YYYY new_year_999 = "01-01-0999"
  /\ datetime.gt new_year_999 first_of_june_2023 = false
  /\ Birthday.init first_of_june_2023 "01-01-0999" = Ret (Birthday.make new_year_999)
  /\ Birthday.str (Birthday.make new_year_999) = "01-01-999"
  /\ Birthday.str (Birthday.make new_year_999) <> "01-01-0999".
Proof.
  split; [unfold is_date; vm_compute; repeat split; intros H; discriminate H|].
  do 4 (split; [reflexivity|]).
  vm_compute. discriminate.
Qed.

(** The text that [Birthday] writes for the year 999 is one that [Birthday]
    itself refuses, with the message that names the format. *)
Lemma Birthday_refuses_its_own_text :
  Birthday.init first_of_june_2023 (Birthday.str (Birthday.make new_year_999))
  = Raise (ValueError ["Birthday must be in a format 'DD-MM-YYYY'"]).
Proof.
  reflexivity.
Qed.

(** From the prompt: "add birthday ann 01-01-0999" stores the date, and
    "show ann" then writes it with a year of three digits. *)
Lemma birthday_of_year_999_is_shown :
  add_birthday first_of_june_2023 ["ann"; "01-01-0999"] ann_book
  = (Ret "The birthday for ann was added",
     [("ann", Record_.add_birthday ann (Birthday.make new_year_999))])
  /\ fst (phone ["ann"] [("ann", Record_.add_birthday ann (Birthday.make new_year_999))])
     = Ret "Name: ann; Birthday: 01-01-999; Phone: 380111111111, 380222222222; Email: None".
Proof.
  split; reflexivity.
Qed.

(** For every calendar date [x] not later than today, a
    [Birthday] is built from the text "DD-MM-YYYY" of [x] and holds [x]; when
    the year of [x] is 1000 or later, rendering it gives the text back. *)
Theorem Birthday_round_trip today x :
  is_date x ->
  datetime.gt x today = false ->
  Birthday.init today (DD_MM_YYYY x) = Ret (Birthday.make x)
  /\ (1000 <= datetime.year x -> Birthday.str (Birthday.make x) = DD_MM_YYYY x).
Proof.
  intros Hx Hle. split.
  - unfold Birthday.init. rewrite strptime_DD_MM_YYYY by exact Hx.
    rewrite Hle. reflexivity.
  - intros Hy. unfold Birthday.str. simpl. apply strftime_DD_MM_YYYY, Hy.
Qed.

Lemma Birthday_round_trip_witness :
  Birthday.init first_of_june_2023 "29-02-2020" = Ret (Birthday.make leap_day)
  /\ (1000 <= 2020 -> Birthday.str (Birthday.make leap_day) = "29-02-2020").
Proof.
  apply (Birthday_round_trip first_of_june_2023 leap_day).
  - unfold is_date. vm_compute. repeat split; intros H; discriminate H.
  - reflexivity.
Defined.

(** * Properties of [days_to_birthday] *)

(** C8.  [leo] was born on the leap day of 2020, a birthday [Birthday]
    accepts.  On the first of June 2023 the method does not report a count:
    [bd.replace(year=2023)] raises, there being no 29th of February in 2023,
    and the handler answers with the text of that error.  And for [june],
    whose birthday is that very day, the count reported is 366, the distance
    to the first of June 2024, not 0. *)
Theorem leap_day_birthday_raises :
  Birthday.init first_of_june_2023 "29-02-2020" = Ret (Birthday.make leap_day)
  /\ Record_.days_to_birthday first_of_june_2023 leo
     = Raise (ValueError ["day is out of range for month"])
  /\ days_to_birthday first_of_june_2023 ["leo"] leo_book
     = (Ret "day is out of range for month", leo_book)
  /\ Record_.days_to_birthday first_of_june_2023 june
     = Ret "june's birthday will be in 366 days".
Proof.
  repeat split; reflexivity.
Qed.

Lemma days_to_birthday_unknown today self :
  Record_.birthday self = None ->
  Record_.days_to_birthday today self
  = Ret (Name.value (Record_.name self) ++ "'s birthday is unknown").
Proof.
  unfold Record_.days_to_birthday. intros ->. reflexivity.
Qed.

Lemma new_Ret y m d x :
  datetime.new y m d = Ret x -> x = datetime.mkdate y m d /\ is_date x.
Proof.
  unfold datetime.new, is_date.
  destruct ((y <? 1) || (y >? 9999)) eqn:Hy; [discriminate|].
  destruct ((m <? 1) || (m >? 12)) eqn:Hm; [discriminate|].
  destruct ((d <? 1) || (d >? datetime.days_in_month y m)) eqn:Hd; [discriminate|].
  intros H. injection H as <-. simpl. split; [reflexivity|]. lia.
Qed.

Lemma days_before_month_bounds y m :
  1 <= m <= 12 ->
  0 <= datetime.days_before_month y m
  /\ datetime.days_before_month y m + datetime.days_in_month y m
     <= 365 + (if datetime.is_leap y then 1 else 0).
Proof.
  intros Hm. unfold datetime.days_before_month, datetime.days_in_month.
  destruct m as [|p|p]; try lia.
  do 4 (try destruct p as [p|p|]); try lia;
    destruct (datetime.is_leap y); simpl; lia.
Qed.

Lemma days_before_next_year y :
  datetime.days_before_year (y + 1)
  = datetime.days_before_year y + 365 + (if datetime.is_leap y then 1 else 0).
Proof.
  unfold datetime.days_before_year, datetime.is_leap.
  replace (y + 1 - 1) with y by lia.
  destruct (Z.eqb_spec (y mod 4) 0) as [H4|H4];
    destruct (Z.eqb_spec (y mod 100) 0) as [H100|H100];
    destruct (Z.eqb_spec (y mod 400) 0) as [H400|H400];
    simpl; Z.div_mod_to_equations; lia.
Qed.

(** A date of next year comes after every date of this year. *)
Lemma next_year_is_later t o :
  is_date t -> is_date o -> datetime.year o = datetime.year t + 1 ->
  datetime.toordinal t < datetime.toordinal o.
Proof.
  intros (_ & Htm & Htd) (_ & Hom & Hod) Hy. unfold datetime.toordinal.
  rewrite Hy, days_before_next_year.
  pose proof (days_before_month_bounds (datetime.year t) (datetime.month t) Htm).
  pose proof (days_before_month_bounds (datetime.year t + 1) (datetime.month o) Hom).
  lia.
Qed.

(** When the method reports a count, the count is that of the days from
    today to a calendar date [o] that has the month and the day of the
    birthday and lies in this year or the next, and it is at least 1; [o] is
    in the next year exactly when this year's date is today or has passed. *)
Lemma days_to_birthday_count today self b msg :
  is_date today ->
  Record_.birthday self = Some b ->
  Record_.days_to_birthday today self = Ret msg ->
  exists o delta,
    msg = Record_.will_be_in self delta
    /\ 1 <= delta
    /\ delta = datetime.toordinal o - datetime.toordinal today
    /\ is_date o
    /\ datetime.month o = datetime.month (Birthday.value b)
    /\ datetime.day o = datetime.day (Birthday.value b)
    /\ (datetime.year o = datetime.year today
        \/ (datetime.year o = datetime.year today + 1
            /\ datetime.toordinal
                 (datetime.mkdate (datetime.year today)
                    (datetime.month (Birthday.value b))
                    (datetime.day (Birthday.value b)))
               <= datetime.toordinal today)).
Proof.
  intros Htoday Hb. unfold Record_.days_to_birthday. rewrite Hb.
  unfold datetime.replace_year.
  destruct (datetime.new (datetime.year today) (datetime.month (Birthday.value b))
              (datetime.day (Birthday.value b))) as [this|e] eqn:Hthis;
    [|discriminate].
  apply new_Ret in Hthis. destruct Hthis as [-> Hthis]. cbn [bind].
  match goal with |- context [?d >? 0] => destruct (Z.gtb_spec d 0) as [Hpos|Hpos] end.
  - intros H. injection H as <-.
    eexists; eexists. split; [reflexivity|].
    split; [lia|]. split; [reflexivity|]. split; [exact Hthis|].
    simpl. auto.
  - simpl datetime.month. simpl datetime.day.
    destruct (datetime.new (datetime.year today + 1) (datetime.month (Birthday.value b))
                (datetime.day (Birthday.value b))) as [next|e] eqn:Hnext;
      [|discriminate].
    apply new_Ret in Hnext. destruct Hnext as [-> Hnext]. cbn [bind].
    intros H. injection H as <-.
    eexists; eexists. split; [reflexivity|].
    assert (Hlater := next_year_is_later today _ Htoday Hnext eq_refl).
    split; [lia|]. split; [reflexivity|]. split; [exact Hnext|].
    simpl. split; [reflexivity|]. split; [reflexivity|]. right. split; [reflexivity|].
    lia.
Qed.

(** * Further properties of the dispatcher *)

Lemma command_loop_handler items user_input : forall ratio possible command data printed,
  command_loop items user_input ratio possible = ((Some command, data), printed) ->
  exists key_word,
    first_prefix items user_input command key_word
    /\ data = Some (Str.split (Str.strip (Str.replace user_input key_word "")) " ")
    /\ printed = [].
Proof.
  induction items as [|[c k] items IH]; intros ratio possible command data printed H.
  - discriminate.
  - cbn [command_loop] in H.
    destruct (Str.startswith user_input k) eqn:Hk.
    + injection H as <- <- <-. exists k. split; [|split; reflexivity].
      exists [], items. repeat split; auto. intros p [].
    + assert (Hrest : exists ratio' possible',
                 command_loop items user_input ratio' possible'
                 = ((Some command, data), printed)).
      { destruct (Qgtb _ _); eauto. }
      destruct Hrest as (ratio' & possible' & Hrest).
      destruct (IH _ _ _ _ _ Hrest) as (kw & (before & after & -> & Hno & Hyes) & Hd & Hp).
      exists kw. split; [|split; assumption].
      exists ((c, k) :: before)%list, after. repeat split; auto.
      apply no_prefix_cons. split; assumption.
Qed.

(** X1.  Whenever the parser returns a handler, it is the handler registered for
    the first keyword that is a prefix of the line, the argument list is not
    empty, and nothing is printed. *)
Theorem command_parser_handler_sound user_input command data printed :
  command_parser user_input = ((Some command, data), printed) ->
  exists key_word args,
    first_prefix COMMANDS user_input command key_word
    /\ data = Some args
    /\ args <> []
    /\ printed = [].
Proof.
  intros H. apply command_loop_handler in H.
  destruct H as (kw & Hfirst & -> & ->).
  exists kw. eexists. split; [exact Hfirst|]. split; [reflexivity|].
  split; [apply split_not_empty | reflexivity].
Qed.

Lemma command_parser_handler_sound_witness :
  exists key_word args,
    first_prefix COMMANDS "change ann 380111111111 380222222222" Cmd.change key_word
    /\ Some ["ann"; "380111111111"; "380222222222"] = Some args
    /\ args <> []
    /\ @nil string = [].
Proof.
  apply (command_parser_handler_sound "change ann 380111111111 380222222222").
  reflexivity.
Defined.

Lemma startswith_append p rest : Str.startswith (p ++ rest) p = true.
Proof.
  induction p as [|c p IH]; simpl.
  - destruct rest; reflexivity.
  - rewrite Ascii.eqb_refl. exact IH.
Qed.

(** X2.  The keywords of the table not being prefixes of one another, "show"
    apart, a line that begins with a keyword other than "show" reaches the
    handler of that keyword, whatever follows the keyword. *)
Theorem keyword_reaches_its_handler command key_word rest :
  In (command, key_word) COMMANDS ->
  key_word <> "show" ->
  command_parser (key_word ++ rest)
  = ((Some command,
      Some (Str.split (Str.strip (Str.replace (key_word ++ rest) key_word "")) " ")),
     []).
Proof.
  intros Hin Hshow. unfold command_parser.
  apply command_loop_first_prefix.
  simpl in Hin.
  repeat (destruct Hin as [Hin|Hin];
          [injection Hin as <- <-;
           try (exfalso; apply Hshow; reflexivity);
           match goal with
           | |- first_prefix _ _ ?c ?k =>
               first
                 [ exists (firstn 0 COMMANDS), (skipn 1 COMMANDS); split; [reflexivity|]
                 | exists (firstn 1 COMMANDS), (skipn 2 COMMANDS); split; [reflexivity|]
                 | exists (firstn 2 COMMANDS), (skipn 3 COMMANDS); split; [reflexivity|]
                 | exists (firstn 3 COMMANDS), (skipn 4 COMMANDS); split; [reflexivity|]
                 | exists (firstn 4 COMMANDS), (skipn 5 COMMANDS); split; [reflexivity|]
                 | exists (firstn 5 COMMANDS), (skipn 6 COMMANDS); split; [reflexivity|]
                 | exists (firstn 6 COMMANDS), (skipn 7 COMMANDS); split; [reflexivity|]
                 | exists (firstn 7 COMMANDS), (skipn 8 COMMANDS); split; [reflexivity|]
                 | exists (firstn 8 COMMANDS), (skipn 9 COMMANDS); split; [reflexivity|]
                 | exists (firstn 9 COMMANDS), (skipn 10 COMMANDS); split; [reflexivity|]
                 | exists (firstn 10 COMMANDS), (skipn 11 COMMANDS); split; [reflexivity|]
                 | exists (firstn 11 COMMANDS), (skipn 12 COMMANDS); split; [reflexivity|]
                 | exists (firstn 12 COMMANDS), (skipn 13 COMMANDS); split; [reflexivity|] ]
           end;
           (split; [|apply startswith_append]);
           intros p Hp; simpl in Hp;
           repeat (destruct Hp as [<-|Hp]; [reflexivity|]); destruct Hp
          |]).
  destruct Hin.
Qed.

Lemma keyword_reaches_its_handler_witness :
  command_parser ("delete contact" ++ " ann")
  = ((Some Cmd.delete_contact,
      Some (Str.split
              (Str.strip (Str.replace ("delete contact" ++ " ann") "delete contact" ""))
              " ")),
     []).
Proof.
  apply keyword_reaches_its_handler.
  - simpl. do 10 right. left. reflexivity.
  - discriminate.
Defined.

(** * Further properties of the loop of [main] *)

Lemma char_lower_idem (c : ascii) : Str.char_lower (Str.char_lower c) = Str.char_lower c.
Proof.
  destruct c as [[] [] [] [] [] [] [] []]; reflexivity.
Qed.

Lemma lower_idem (s : string) : Str.lower (Str.lower s) = Str.lower s.
Proof.
  induction s as [|c s IH]; simpl; [reflexivity|].
  rewrite char_lower_idem, IH. reflexivity.
Qed.

(** The loop of [main] does not tell a line from its lower-case form:
    whatever the case of the letters typed, the same step is taken and the
    same lines are printed. *)
Theorem main_ignores_case user_input save_file :
  main_iteration user_input save_file = main_iteration (Str.lower user_input) save_file.
Proof.
  unfold main_iteration. rewrite lower_idem. reflexivity.
Qed.

Lemma all_lower_char_lower (s : string) : Str.all lower_char (Str.lower s) = true.
Proof.
  induction s as [|c s IH]; simpl; [reflexivity|].
  rewrite IH. unfold lower_char. rewrite char_lower_idem, Ascii.eqb_refl. reflexivity.
Qed.

Lemma all_lower_char_lowered (s : string) : Str.all lower_char s = true -> lowered s.
Proof.
  unfold lowered. induction s as [|c s IH]; simpl; [reflexivity|].
  intros H. apply andb_prop in H. destruct H as [Hc Hs].
  apply Ascii.eqb_eq in Hc. rewrite Hc, (IH Hs). reflexivity.
Qed.

Lemma all_append p (s1 s2 : string) :
  Str.all p (s1 ++ s2) = Str.all p s1 && Str.all p s2.
Proof.
  induction s1 as [|c s1 IH]; simpl; [reflexivity|].
  rewrite IH. apply andb_assoc.
Qed.

(** The string methods of the parser give out characters of their input
    only. *)
Lemma all_replace_from p old : forall s skip,
  Str.all p s = true -> Str.all p (Str.replace_from skip s old "") = true.
Proof.
  induction s as [|c s IH]; intros skip H; [reflexivity|].
  simpl in H. apply andb_prop in H. destruct H as [Hc Hs].
  cbn [Str.replace_from]. destruct skip as [|skip]; [|apply IH, Hs].
  destruct (Str.startswith (String c s) old).
  - simpl. apply IH, Hs.
  - simpl. rewrite Hc. apply IH, Hs.
Qed.

Lemma all_interleave p (s : string) :
  Str.all p s = true -> Str.all p (Str.interleave s "") = true.
Proof.
  induction s as [|c s IH]; simpl; [reflexivity|].
  intros H. apply andb_prop in H. destruct H as [Hc Hs]. rewrite Hc. apply IH, Hs.
Qed.

Lemma all_replace p s old :
  Str.all p s = true -> Str.all p (Str.replace s old "") = true.
Proof.
  intros H. unfold Str.replace. destruct old; [apply all_interleave | apply all_replace_from]; exact H.
Qed.

Lemma all_lstrip p (s : string) : Str.all p s = true -> Str.all p (Str.lstrip s) = true.
Proof.
  induction s as [|c s IH]; simpl; [reflexivity|].
  intros H. destruct (Str.char_isspace c); [|exact H].
  apply andb_prop in H. apply IH, H.
Qed.

Lemma all_rstrip p (s : string) : Str.all p s = true -> Str.all p (Str.rstrip s) = true.
Proof.
  induction s as [|c s IH]; simpl; [reflexivity|].
  intros H. apply andb_prop in H. destruct H as [Hc Hs]. specialize (IH Hs).
  destruct (Str.rstrip s) as [|d r].
  - destruct (Str.char_isspace c); simpl; [reflexivity | rewrite Hc; reflexivity].
  - change (Str.all p (String c (String d r)) = true). simpl. rewrite Hc. exact IH.
Qed.

Lemma all_split_from p sep : forall s skip cur,
  Str.all p s = true -> Str.all p cur = true ->
  Forall (fun piece => Str.all p piece = true) (Str.split_from skip s sep cur).
Proof.
  induction s as [|c s IH]; intros skip cur Hs Hcur.
  - constructor; [exact Hcur | constructor].
  - simpl in Hs. apply andb_prop in Hs. destruct Hs as [Hc Hs].
    cbn [Str.split_from]. destruct skip as [|skip]; [|apply IH; assumption].
    destruct (Str.startswith (String c s) sep).
    + constructor; [exact Hcur | apply IH; [exact Hs | reflexivity]].
    + apply IH; [exact Hs|]. rewrite all_append, Hcur. simpl. rewrite Hc. reflexivity.
Qed.

(** X3.  The arguments [main] hands to a handler are in lower case: a name typed
    with capitals is stored, looked up and deleted under its lower-case
    form. *)
Theorem main_passes_lowered_arguments user_input save_file command data printed :
  main_iteration user_input save_file = (Call command data, printed) ->
  Forall lowered data.
Proof.
  unfold main_iteration. destruct (member (Str.lower user_input) end_words).
  - unfold save_confirmation.
    destruct (String.eqb save_file "y"); [discriminate|].
    destruct (String.eqb save_file "n"); discriminate.
  - destruct (command_parser (Str.lower user_input)) as [[c d] out] eqn:Hp.
    destruct c as [c|]; [|discriminate]. destruct d as [d|]; [|discriminate].
    intros H. injection H as <- <- <-.
    apply command_loop_handler in Hp. destruct Hp as (kw & _ & Hd & _).
    injection Hd as ->.
    eapply Forall_impl; [intros a Ha; apply all_lower_char_lowered; exact Ha|].
    apply all_split_from; [|reflexivity].
    unfold Str.strip. apply all_rstrip, all_lstrip, all_replace, all_lower_char_lower.
Qed.

Lemma main_passes_lowered_arguments_witness :
  Forall lowered ["ann"; "380111111111"].
Proof.
  apply (main_passes_lowered_arguments "Add Contact ANN 380111111111" "" Cmd.add_phone
           ["ann"; "380111111111"] []).
  reflexivity.
Defined.

(** * Properties of [Email] *)

Lemma contains_append needle pre hay :
  Str.contains needle hay = true -> Str.contains needle (pre ++ hay) = true.
Proof.
  induction pre as [|c pre IH]; intros H; [exact H|].
  cbn [append Str.contains]. rewrite (IH H). apply orb_true_r.
Qed.

(** A repetition hands to the rest of the pattern an end piece of the text. *)
Lemma plus_suffix p k : forall s,
  re.plus p s k = true -> exists pre rest, s = pre ++ rest /\ k rest = true.
Proof.
  induction s as [|c s IH]; simpl; [discriminate|].
  intros H. apply andb_prop in H. destruct H as [_ H].
  apply orb_prop in H. destruct H as [H|H].
  - destruct (IH H) as (pre & rest & -> & Hk). exists (String c pre), rest. auto.
  - exists (String c ""), s. auto.
Qed.

Lemma match_at_has_at prev s : re.match_at prev s = true -> Str.contains "@" s = true.
Proof.
  unfold re.match_at. intros H. apply andb_prop in H. destruct H as [_ H].
  destruct s as [|c s1]; [discriminate|]. simpl in H.
  apply andb_prop in H. destruct H as [_ H].
  apply plus_suffix in H. destruct H as (pre & rest & -> & H).
  destruct rest as [|a s3]; [discriminate|]. simpl in H.
  apply andb_prop in H. destruct H as [Ha _].
  apply (contains_append "@" (String c pre)).
  simpl. unfold Str.between, Str.code in Ha.
  destruct a as [[] [] [] [] [] [] [] []]; try discriminate Ha.
  destruct s3; reflexivity.
Qed.

Lemma found_has_at : forall s prev, re.found prev s = true -> Str.contains "@" s = true.
Proof.
  induction s as [|c s IH]; intros prev H.
  - simpl in H. rewrite orb_false_r in H. apply match_at_has_at in H. exact H.
  - cbn [re.found] in H. apply orb_prop in H. destruct H as [H|H].
    + apply match_at_has_at in H. exact H.
    + apply (contains_append "@" (String c "")). apply (IH _ H).
Qed.

(** X4.  [Email] never takes a text without the character "@": it raises the
    [ValueError] with the message about the format. *)
Theorem Email_needs_at value :
  Str.contains "@" value = false ->
  Email.init value = Raise (ValueError [Email.wrong_format]).
Proof.
  intros H. unfold Email.init.
  destruct (re.found None value) eqn:Hf; [|reflexivity].
  apply found_has_at in Hf. congruence.
Qed.

Lemma Email_needs_at_witness :
  Email.init "eve.mail.com" = Raise (ValueError [Email.wrong_format]).
Proof.
  apply Email_needs_at. reflexivity.
Defined.

Lemma one_append p s t (k k' : string -> bool) :
  (forall x, k x = true -> k' (x ++ t) = true) ->
  re.one p s k = true -> re.one p (s ++ t) k' = true.
Proof.
  intros Hk. destruct s as [|c s]; simpl; [discriminate|].
  intros H. apply andb_prop in H. destruct H as [-> H]. apply Hk, H.
Qed.

Lemma plus_append p t (k k' : string -> bool) :
  (forall x, k x = true -> k' (x ++ t) = true) ->
  forall s, re.plus p s k = true -> re.plus p (s ++ t) k' = true.
Proof.
  intros Hk. induction s as [|c s IH]; simpl; [discriminate|].
  intros H. apply andb_prop in H. destruct H as [-> H]. simpl.
  apply orb_prop in H. destruct H as [H|H].
  - rewrite (IH H). reflexivity.
  - rewrite (Hk _ H). apply orb_true_r.
Qed.

Lemma two_or_three_append s t :
  re.two_or_three s = true -> re.two_or_three (s ++ t) = true.
Proof.
  unfold re.two_or_three.
  apply one_append. intros s1. apply one_append. intros s2 _. apply orb_true_r.
Qed.

Lemma match_at_append prev s t :
  re.match_at prev s = true -> re.match_at prev (s ++ t) = true.
Proof.
  unfold re.match_at. intros H. apply andb_prop in H. destruct H as [Hb H].
  apply andb_true_intro. split.
  - destruct s as [|c s]; [discriminate H | exact Hb].
  - revert H. apply one_append. intros s1. apply plus_append. intros s2.
    apply one_append. intros s3. apply plus_append. intros s4.
    apply one_append. intros s5. apply two_or_three_append.
Qed.

Lemma found_append t : forall s prev,
  re.found prev s = true -> re.found prev (s ++ t) = true.
Proof.
  induction s as [|c s IH]; intros prev H.
  - cbn [re.found] in H. rewrite orb_false_r in H. unfold re.match_at in H.
    apply andb_prop in H. destruct H as [_ H]. discriminate H.
  - cbn [re.found] in H. cbn [append re.found].
    apply orb_prop in H. destruct H as [H|H].
    + change (String c (s ++ t)) with (String c s ++ t).
      rewrite (match_at_append _ _ t H). reflexivity.
    + rewrite (IH _ H). apply orb_true_r.
Qed.

(** X5.  The pattern of [Email] is not tied to the end of the text: a text that
    [Email] takes is still taken with anything appended to it. *)
Theorem Email_takes_any_ending value e ending :
  Email.init value = Ret e ->
  Email.init (value ++ ending) = Ret (Email.make (value ++ ending)).
Proof.
  unfold Email.init. destruct (re.found None value) eqn:Hf; [|discriminate].
  intros _. rewrite (found_append ending _ _ Hf). reflexivity.
Qed.

Lemma Email_takes_any_ending_witness :
  Email.init ("eve@mail.com" ++ " and more, <not> an address")
  = Ret (Email.make ("eve@mail.com" ++ " and more, <not> an address")).
Proof.
  apply (Email_takes_any_ending "eve@mail.com" (Email.make "eve@mail.com")).
  reflexivity.
Defined.

(** * Further properties of [Record] *)

Lemma find_phone_some value : forall phones before ph after,
  Record_.find_phone value phones = Some (before, ph, after) ->
  phones = (before ++ ph :: after)%list
  /\ Phone.value ph = value
  /\ Forall (fun q => Phone.value q <> value) before.
Proof.
  induction phones as [|q phones IH]; intros before ph after H; [discriminate|].
  simpl in H. destruct (String.eqb_spec (Phone.value q) value) as [Heq|Hne].
  - injection H as <- <- <-. auto.
  - destruct (Record_.find_phone value phones) as [[[b f] a]|]; [|discriminate].
    injection H as <- <- <-.
    destruct (IH _ _ _ eq_refl) as (-> & Hv & Hb). auto.
Qed.

Lemma find_phone_first value before ph after :
  Phone.value ph = value ->
  Forall (fun q => Phone.value q <> value) before ->
  Record_.find_phone value (before ++ ph :: after) = Some (before, ph, after).
Proof.
  intros Hv Hb. induction Hb as [|q before Hq Hb IH]; simpl.
  - apply String.eqb_eq in Hv. rewrite Hv. reflexivity.
  - apply String.eqb_neq in Hq. rewrite Hq, IH. reflexivity.
Qed.

Lemma find_phone_none value phones :
  Forall (fun q => Phone.value q <> value) phones ->
  Record_.find_phone value phones = None.
Proof.
  induction 1 as [|q phones Hq Hb IH]; simpl; [reflexivity|].
  apply String.eqb_neq in Hq. rewrite Hq, IH. reflexivity.
Qed.

Lemma set_phones_same (self : Record_.t) :
  Record_.set_phones self (Record_.phones self) = self.
Proof.
  destruct self; reflexivity.
Qed.

(** X6.  [remove_phone] takes out the first phone that has the value asked for
    and no other, the rest keeping their order; when no phone has that value
    the record is left as it is and the answer says "not found". *)
Theorem remove_phone_first_match self text :
  Phone.init text = Ret (Phone.make text) ->
  (forall before ph after,
     Record_.phones self = (before ++ ph :: after)%list ->
     Phone.value ph = text ->
     Forall (fun q => Phone.value q <> text) before ->
     Record_.remove_phone self text
     = Ret (Record_.set_phones self (before ++ after)%list,
            "Phone " ++ text ++ " was successfully removed from "
            ++ Name.value (Record_.name self)))
  /\ (Forall (fun q => Phone.value q <> text) (Record_.phones self) ->
      Record_.remove_phone self text = Ret (self, "Number " ++ text ++ " not found")).
Proof.
  intros Hok. unfold Record_.remove_phone. rewrite Hok. cbn [bind Phone.value]. split.
  - intros before ph after -> Hv Hb.
    rewrite (find_phone_first _ _ _ _ Hv Hb). unfold Phone.str. rewrite Hv. reflexivity.
  - intros Hnone. rewrite (find_phone_none _ _ Hnone). reflexivity.
Qed.

Lemma remove_phone_first_match_witness :
  Record_.remove_phone ann "380222222222"
  = Ret (Record_.set_phones ann [Phone.make "380111111111"],
         "Phone 380222222222 was successfully removed from ann").
Proof.
  apply (proj1 (remove_phone_first_match ann "380222222222" eq_refl)
           [Phone.make "380111111111"] (Phone.make "380222222222") []).
  - reflexivity.
  - reflexivity.
  - constructor; [simpl; discriminate | constructor].
Defined.

(** X7.  A text that is not a phone number is refused before the phones are
    looked at: whatever the record holds, [remove_phone] raises the
    [ValueError] that [Phone] raises for that text, with the same message. *)
Theorem remove_phone_validates_first self text :
  Phone.init text <> Ret (Phone.make text) ->
  exists m,
    Phone.init text = Raise (ValueError [m])
    /\ Record_.remove_phone self text = Raise (ValueError [m]).
Proof.
  intros H. unfold Record_.remove_phone.
  destruct (Phone.init text) as [p|e] eqn:Hp.
  - exfalso. apply H. rewrite (Phone_init_value _ _ Hp). reflexivity.
  - destruct (Phone_init_raises text) as (m & Hm).
    + intros Hv. apply Phone_init_iff in Hv. congruence.
    + rewrite Hp in Hm. injection Hm as ->. exists m. split; reflexivity.
Qed.

Lemma remove_phone_validates_first_witness :
  exists m,
    Phone.init "0501112233" = Raise (ValueError [m])
    /\ Record_.remove_phone ann "0501112233" = Raise (ValueError [m]).
Proof.
  apply remove_phone_validates_first. discriminate.
Defined.

(** The exception of [Phone] is the exception of [remove_phone]; on [ann],
    for a text of ten digits, it carries the message about the length. *)
Lemma remove_phone_raises_what_Phone_raises self text e :
  Phone.init text = Raise e -> Record_.remove_phone self text = Raise e.
Proof.
  intros H. unfold Record_.remove_phone. rewrite H. reflexivity.
Qed.

Lemma remove_phone_of_ten_digits :
  Record_.remove_phone ann "0501112233"
  = Raise (ValueError ["Phone must contains 12 symbols."]).
Proof.
  reflexivity.
Qed.

(** X8.  Adding a number the record does not hold and removing it again gives
    the record back. *)
Theorem add_then_remove_phone self text :
  Phone.init text = Ret (Phone.make text) ->
  Forall (fun q => Phone.value q <> text) (Record_.phones self) ->
  Record_.remove_phone (fst (Record_.add_phone self (Phone.make text))) text
  = Ret (self,
         "Phone " ++ text ++ " was successfully removed from "
         ++ Name.value (Record_.name self)).
Proof.
  intros Hok Hnone. unfold Record_.remove_phone. rewrite Hok. cbn [bind Phone.value].
  unfold Record_.add_phone. cbn [fst Record_.set_phones Record_.phones Record_.name].
  rewrite (find_phone_first text (Record_.phones self) (Phone.make text) [] eq_refl Hnone).
  rewrite app_nil_r. destruct self; reflexivity.
Qed.

Lemma add_then_remove_phone_witness :
  Record_.remove_phone (fst (Record_.add_phone ann (Phone.make "380333333333")))
    "380333333333"
  = Ret (ann, "Phone 380333333333 was successfully removed from ann").
Proof.
  apply (add_then_remove_phone ann "380333333333").
  - reflexivity.
  - repeat constructor; simpl; discriminate.
Defined.

(** [change] neither adds nor loses a phone, and touches nothing but the
    phones. *)
Theorem Record_change_keeps_the_rest self old_phone new_phone :
  let self' := fst (Record_.change self old_phone new_phone) in
  List.length (Record_.phones self') = List.length (Record_.phones self)
  /\ Record_.name self' = Record_.name self
  /\ Record_.birthday self' = Record_.birthday self
  /\ Record_.email self' = Record_.email self.
Proof.
  unfold Record_.change. destruct (Record_.phones self) as [|ph rest] eqn:Hp; simpl.
  - rewrite Hp. auto.
  - destruct (String.eqb (Phone.value ph) (Phone.value old_phone)); simpl.
    + rewrite length_app. simpl. repeat split. lia.
    + rewrite Hp. auto.
Qed.

(** * Further properties of [AddressBook] *)

Lemma get_set_same (book : AddressBook.t) key v :
  AddressBook.get (AddressBook.set book key v) key = Some v.
Proof.
  induction book as [|[k w] book IH]; simpl.
  - rewrite String.eqb_refl. reflexivity.
  - destruct (String.eqb k key) eqn:Hk; simpl; rewrite Hk; [reflexivity | exact IH].
Qed.

Lemma get_set_other (book : AddressBook.t) key v k' :
  k' <> key ->
  AddressBook.get (AddressBook.set book key v) k' = AddressBook.get book k'.
Proof.
  intros Hne. induction book as [|[k w] book IH]; simpl.
  - destruct (String.eqb_spec key k'); [congruence | reflexivity].
  - destruct (String.eqb_spec k key) as [->|Hk]; simpl.
    + destruct (String.eqb_spec key k'); [congruence | reflexivity].
    + rewrite IH. reflexivity.
Qed.

(** X9.  A record added to the book is found under its name, in place of any
    record that was there, and the other names are not affected. *)
Theorem add_record_then_get book record :
  AddressBook.get (AddressBook.add_record book record)
    (Name.value (Record_.name record)) = Some record
  /\ forall key, key <> Name.value (Record_.name record) ->
       AddressBook.get (AddressBook.add_record book record) key
       = AddressBook.get book key.
Proof.
  unfold AddressBook.add_record. split.
  - apply get_set_same.
  - intros key Hne. apply get_set_other, Hne.
Qed.

Lemma get_none_not_in (book : AddressBook.t) key :
  AddressBook.get book key = None <-> ~ In key (map fst book).
Proof.
  induction book as [|[k w] book IH]; simpl.
  - tauto.
  - destruct (String.eqb_spec k key) as [->|Hk].
    + split; [discriminate | intros H; exfalso; apply H; left; reflexivity].
    + rewrite IH. tauto.
Qed.

Lemma pop_absent (book : AddressBook.t) key :
  ~ In key (map fst book) -> AddressBook.pop book key = book.
Proof.
  induction book as [|[k w] book IH]; simpl; [reflexivity|].
  intros H. destruct (String.eqb_spec k key) as [->|Hk]; [tauto|].
  rewrite IH; [reflexivity | tauto].
Qed.

Lemma keys_pop (book : AddressBook.t) key k' :
  In k' (map fst (AddressBook.pop book key)) -> In k' (map fst book).
Proof.
  induction book as [|[k w] book IH]; simpl; [tauto|].
  destruct (String.eqb k key); simpl; intuition.
Qed.

Lemma pop_removes (book : AddressBook.t) key :
  NoDup (map fst book) -> ~ In key (map fst (AddressBook.pop book key)).
Proof.
  induction book as [|[k w] book IH]; simpl; [tauto|].
  intros Hnd. inversion Hnd as [|x l Hx Hl]; subst.
  destruct (String.eqb_spec k key) as [->|Hk]; simpl; [exact Hx|].
  intros [H|H]; [congruence | exact (IH Hl H)].
Qed.

Lemma get_pop_other (book : AddressBook.t) key k' :
  k' <> key -> AddressBook.get (AddressBook.pop book key) k' = AddressBook.get book k'.
Proof.
  intros Hne. induction book as [|[k w] book IH]; simpl; [reflexivity|].
  destruct (String.eqb_spec k key) as [->|Hk]; simpl.
  - destruct (String.eqb_spec key k'); [congruence | reflexivity].
  - rewrite IH. reflexivity.
Qed.

(** X10.  In a book without a repeated key, a record removed is no longer found,
    the other names are not affected, and removing it once more changes
    nothing. *)
Theorem remove_record_then_get book record :
  NoDup (map fst book) ->
  AddressBook.get (AddressBook.remove_record book record)
    (Name.value (Record_.name record)) = None
  /\ (forall key, key <> Name.value (Record_.name record) ->
        AddressBook.get (AddressBook.remove_record book record) key
        = AddressBook.get book key)
  /\ AddressBook.remove_record (AddressBook.remove_record book record) record
     = AddressBook.remove_record book record.
Proof.
  intros Hnd. unfold AddressBook.remove_record.
  pose proof (pop_removes book (Name.value (Record_.name record)) Hnd) as Hgone.
  split; [apply get_none_not_in, Hgone|]. split.
  - intros key Hne. apply get_pop_other, Hne.
  - apply pop_absent, Hgone.
Qed.

Lemma remove_record_then_get_witness :
  AddressBook.get (AddressBook.remove_record eve_book ann) "ann" = None
  /\ (forall key, key <> "ann" ->
        AddressBook.get (AddressBook.remove_record eve_book ann) key
        = AddressBook.get eve_book key)
  /\ AddressBook.remove_record (AddressBook.remove_record eve_book ann) ann
     = AddressBook.remove_record eve_book ann.
Proof.
  apply (remove_record_then_get eve_book ann).
  repeat constructor; simpl; intuition discriminate.
Defined.

Lemma keys_set (book : AddressBook.t) key v :
  map fst (AddressBook.set book key v)
  = if AddressBook.has book key then map fst book else (map fst book ++ [key])%list.
Proof.
  unfold AddressBook.has. induction book as [|[k w] book IH]; simpl; [reflexivity|].
  destruct (String.eqb_spec k key) as [->|Hk]; simpl; [reflexivity|].
  rewrite IH. destruct (AddressBook.get book key); reflexivity.
Qed.

Lemma book_ok_get book key record :
  book_ok book -> AddressBook.get book key = Some record ->
  Name.value (Record_.name record) = key.
Proof.
  intros [_ Hnames]. induction Hnames as [|[k w] book Hk Hn IH]; simpl; [discriminate|].
  destruct (String.eqb_spec k key) as [->|Hne]; [|exact IH].
  intros H. injection H as <-. symmetry. exact Hk.
Qed.

Lemma book_ok_set book key v :
  book_ok book -> Name.value (Record_.name v) = key ->
  book_ok (AddressBook.set book key v).
Proof.
  intros [Hnd Hnames] Hv. split.
  - rewrite keys_set. unfold AddressBook.has.
    destruct (AddressBook.get book key) eqn:Hg; [exact Hnd|].
    apply get_none_not_in in Hg.
    apply NoDup_app; [exact Hnd | repeat constructor; simpl; tauto |].
    intros x Hx [<-|[]]. exact (Hg Hx).
  - clear Hnd. induction Hnames as [|[k w] book Hk Hn IH]; simpl.
    + repeat constructor. simpl. congruence.
    + destruct (String.eqb_spec k key) as [->|Hne]; constructor; simpl; auto; congruence.
Qed.

Lemma book_ok_pop book key : book_ok book -> book_ok (AddressBook.pop book key).
Proof.
  intros [Hnd Hnames]. split.
  - clear Hnames. induction book as [|[k w] book IH]; simpl; [constructor|].
    inversion Hnd as [|x l Hx Hl]; subst.
    destruct (String.eqb k key); [exact Hl|].
    simpl. constructor; [|exact (IH Hl)].
    intros H. apply Hx. eapply keys_pop, H.
  - clear Hnd. induction Hnames as [|[k w] book Hk Hn IH]; simpl; [constructor|].
    destruct (String.eqb k key); [exact Hn | constructor; assumption].
Qed.

Lemma change_keeps_name self old_phone new_phone :
  Record_.name (fst (Record_.change self old_phone new_phone)) = Record_.name self.
Proof.
  unfold Record_.change. destruct (Record_.phones self) as [|ph rest]; [reflexivity|].
  destruct (String.eqb _ _); reflexivity.
Qed.

Lemma book_ok_change_record book username old_n new_n :
  book_ok book -> book_ok (AddressBook.change_record book username old_n new_n).
Proof.
  intros Hok. unfold AddressBook.change_record.
  destruct (AddressBook.get book username) as [record|] eqn:Hg; [|exact Hok].
  apply book_ok_set; [exact Hok|].
  rewrite change_keeps_name. exact (book_ok_get _ _ _ Hok Hg).
Qed.

(** X11.  The methods that write to the book keep it a dict of records stored
    under their own names, no name twice. *)
Theorem AddressBook_methods_keep_book book record username old_n new_n :
  book_ok book ->
  book_ok (AddressBook.add_record book record)
  /\ book_ok (AddressBook.remove_record book record)
  /\ book_ok (AddressBook.change_record book username old_n new_n).
Proof.
  intros Hok. split; [|split].
  - apply book_ok_set; [exact Hok | reflexivity].
  - apply book_ok_pop, Hok.
  - apply book_ok_change_record, Hok.
Qed.

(** On the book of [ann] and [eve]: a record named "ann" without phones
    takes the place of [ann], the name "ann" is taken out, and the first
    phone of [ann] is changed. *)
Lemma AddressBook_methods_keep_book_witness :
  book_ok (AddressBook.add_record eve_book (Record_.init (Name.make "ann") None))
  /\ book_ok (AddressBook.remove_record eve_book (Record_.init (Name.make "ann") None))
  /\ book_ok (AddressBook.change_record eve_book "ann"
                (Phone.make "380111111111") (Phone.make "380333333333")).
Proof.
  apply (AddressBook_methods_keep_book eve_book (Record_.init (Name.make "ann") None) "ann").
  split; repeat constructor; simpl; intuition discriminate.
Defined.

Lemma concat_cons (x : string) (l : list string) :
  String.concat "" (x :: l) = x ++ String.concat "" l.
Proof.
  destruct l; simpl; [symmetry; apply append_empty_r | reflexivity].
Qed.

Lemma iterator_loop_lines n : forall records count result,
  AddressBook.iterator_loop n records count result
  = result ++ String.concat ""
                (map AddressBook.listed_line (firstn (Z.to_nat (n - count)) records)).
Proof.
  induction records as [|rec records IH]; intros count result.
  - rewrite firstn_nil. simpl. symmetry. apply append_empty_r.
  - cbn [AddressBook.iterator_loop]. destruct (Z.ltb_spec count n) as [Hlt|Hge].
    + rewrite IH. replace (Z.to_nat (n - count)) with (S (Z.to_nat (n - (count + 1)))) by lia.
      cbn [firstn map]. rewrite concat_cons. apply append_assoc.
    + rewrite IH. replace (Z.to_nat (n - count)) with O by lia. reflexivity.
Qed.

(** X12.  [iterator(n)] yields one string: the lines of the first [n] records of
    the book in its order, of all of them when [n] is the size of the book
    or more, and the empty string when [n] is zero or negative. *)
Theorem iterator_first_records book n :
  AddressBook.iterator book n
  = [String.concat ""
       (map AddressBook.listed_line (firstn (Z.to_nat n) (AddressBook.values book)))].
Proof.
  unfold AddressBook.iterator. f_equal. rewrite iterator_loop_lines. simpl.
  rewrite Z.sub_0_r.
  destruct (Z.gtb_spec n (Z.of_nat (List.length book))) as [Hgt|Hle]; [|reflexivity].
  rewrite Nat2Z.id.
  assert (Hlen : List.length (AddressBook.values book) = List.length book)
    by apply length_map.
  rewrite !firstn_all2; [reflexivity | lia | lia].
Qed.

(** X13.  A search for the empty text returns the line of every record of the
    book, each one once, in the order of the book. *)
Theorem search_for_nothing_lists_all book :
  AddressBook.search_in_file book ""
  = String.concat "" (map AddressBook.found_line (AddressBook.values book)).
Proof.
  rewrite search_in_file_lines. f_equal.
  apply map_ext. intros record. unfold record_lines. simpl Str.lower.
  destruct (Str.lower (Name.str (Record_.name record))); reflexivity.
Qed.

(** * Further properties of [Birthday] and of [days_to_birthday] *)

(** X14.  A calendar date later than today is refused, with the message that says
    so. *)
Theorem Birthday_refuses_the_future today x :
  is_date x ->
  datetime.gt x today = true ->
  Birthday.init today (DD_MM_YYYY x)
  = Raise (ValueError ["Birthday can't be bigger than current date."]).
Proof.
  intros Hx Hgt. unfold Birthday.init.
  rewrite (strptime_DD_MM_YYYY x Hx), Hgt. reflexivity.
Qed.

Lemma Birthday_refuses_the_future_witness :
  Birthday.init first_of_june_2023 "02-06-2023"
  = Raise (ValueError ["Birthday can't be bigger than current date."]).
Proof.
  apply (Birthday_refuses_the_future first_of_june_2023 (datetime.mkdate 2023 6 2)).
  - unfold is_date. vm_compute. repeat split; intros H; discriminate H.
  - reflexivity.
Defined.

Lemma strptime_is_date s x : datetime.strptime s = Some x -> is_date x.
Proof.
  unfold datetime.strptime.
  destruct (datetime.regex_match s) as [[[[d m] y] [|c rest]]|]; try discriminate.
  destruct (datetime.new y m d) as [x'|e] eqn:Hnew; [|discriminate].
  intros H. injection H as <-. apply new_Ret in Hnew. tauto.
Qed.

(** X15.  Whatever text it was built from, a [Birthday] holds a calendar date that
    is not later than the day it was built on, and the text "DD-MM-YYYY" of
    that date builds the same [Birthday] again. *)
Theorem Birthday_holds_a_past_date today text b :
  Birthday.init today text = Ret b ->
  is_date (Birthday.value b)
  /\ datetime.gt (Birthday.value b) today = false
  /\ Birthday.init today (DD_MM_YYYY (Birthday.value b)) = Ret b.
Proof.
  unfold Birthday.init at 1.
  destruct (datetime.strptime text) as [d|] eqn:Hd; [|discriminate].
  destruct (datetime.gt d today) eqn:Hgt; [discriminate|].
  intros H. injection H as <-. cbn [Birthday.value].
  pose proof (strptime_is_date _ _ Hd) as Hdate.
  split; [exact Hdate|]. split; [exact Hgt|].
  unfold Birthday.init. rewrite (strptime_DD_MM_YYYY d Hdate), Hgt. reflexivity.
Qed.

Lemma Birthday_holds_a_past_date_witness :
  is_date (datetime.mkdate 2020 1 5)
  /\ datetime.gt (datetime.mkdate 2020 1 5) first_of_june_2023 = false
  /\ Birthday.init first_of_june_2023 "05-01-2020"
     = Ret (Birthday.make (datetime.mkdate 2020 1 5)).
Proof.
  apply (Birthday_holds_a_past_date first_of_june_2023 "5-1-2020"
           (Birthday.make (datetime.mkdate 2020 1 5))).
  reflexivity.
Defined.

Lemma same_day_next_year y m d :
  1 <= m <= 12 ->
  datetime.toordinal (datetime.mkdate (y + 1) m d)
  - datetime.toordinal (datetime.mkdate y m d) <= 366.
Proof.
  intros Hm. unfold datetime.toordinal. cbn [datetime.year datetime.month datetime.day].
  rewrite days_before_next_year. unfold datetime.days_before_month.
  assert (Hleap : ~ (datetime.is_leap y = true /\ datetime.is_leap (y + 1) = true)).
  { unfold datetime.is_leap. intros [H1 H2].
    apply andb_prop in H1. destruct H1 as [H1 _].
    apply andb_prop in H2. destruct H2 as [H2 _].
    apply Z.eqb_eq in H1. apply Z.eqb_eq in H2.
    Z.div_mod_to_equations. lia. }
  destruct m as [|p|p]; try lia.
  do 4 (try destruct p as [p|p|]); try lia;
    destruct (datetime.is_leap y), (datetime.is_leap (y + 1)); simpl; try lia;
    exfalso; apply Hleap; auto.
Qed.

Lemma same_year_apart t o :
  is_date t -> is_date o -> datetime.year o = datetime.year t ->
  datetime.toordinal o - datetime.toordinal t <= 365.
Proof.
  intros (_ & Htm & Htd) (_ & Hom & Hod) Hy. unfold datetime.toordinal. rewrite Hy.
  pose proof (days_before_month_bounds (datetime.year t) (datetime.month t) Htm).
  pose proof (days_before_month_bounds (datetime.year t) (datetime.month o) Hom).
  rewrite Hy in Hod.
  destruct (datetime.is_leap (datetime.year t)); lia.
Qed.

(** X16.  When [days_to_birthday] reports a number of days, the number is between
    1 and 366. *)
Theorem days_to_birthday_between_1_and_366 today self b msg :
  is_date today ->
  Record_.birthday self = Some b ->
  Record_.days_to_birthday today self = Ret msg ->
  exists delta, msg = Record_.will_be_in self delta /\ 1 <= delta <= 366.
Proof.
  intros Htoday Hb H.
  destruct (days_to_birthday_count today self b msg Htoday Hb H)
    as (o & delta & -> & Hpos & Hdelta & Ho & Hm & Hd & Hyear).
  exists delta. split; [reflexivity|]. split; [exact Hpos|].
  destruct Hyear as [Hsame | [Hnext Hpassed]].
  - pose proof (same_year_apart today o Htoday Ho Hsame). lia.
  - assert (Ho' : o = datetime.mkdate (datetime.year today + 1)
                        (datetime.month (Birthday.value b))
                        (datetime.day (Birthday.value b))).
    { destruct o; simpl in *; congruence. }
    destruct Ho as (_ & Hmo & _). rewrite Hm in Hmo.
    pose proof (same_day_next_year (datetime.year today)
                  (datetime.month (Birthday.value b))
                  (datetime.day (Birthday.value b)) Hmo).
    rewrite <- Ho' in *. lia.
Qed.

Lemma days_to_birthday_between_1_and_366_witness :
  exists delta,
    "june's birthday will be in 366 days" = Record_.will_be_in june delta
    /\ 1 <= delta <= 366.
Proof.
  apply (days_to_birthday_between_1_and_366 first_of_june_2023 june
           (Birthday.make (datetime.mkdate 2000 6 1))).
  - unfold is_date. vm_compute. repeat split; intros H; discriminate H.
  - reflexivity.
  - reflexivity.
Defined.

(** * Further properties of the handlers *)

Lemma error_handler_safe (func : handler) args book :
  safe (fst (func args book)) ->
  exists msg, fst (error_handler func args book) = Ret msg.
Proof.
  intros H. destruct (fst (func args book)) as [r|e] eqn:Hf.
  - exists r. rewrite (error_handler_returns _ _ _ _ Hf). reflexivity.
  - destruct (error_handler_catches _ _ _ _ Hf H) as (r & Hr).
    exists r. rewrite Hr. reflexivity.
Qed.

Lemma error_handler_book (func : handler) args book :
  snd (error_handler func args book) = snd (func args book).
Proof.
  unfold error_handler. destruct (func args book) as [[r|e] book']; [reflexivity|].
  destruct e as [|[|m eargs]| | |]; reflexivity.
Qed.


Lemma Phone_init_cases value :
  (Phone.init value = Ret (Phone.make value) /\ Str.isnumeric value = true)
  \/ exists m, Phone.init value = Raise (ValueError [m]).
Proof.
  destruct (Phone.init value) as [p|e] eqn:Hp.
  - left. pose proof (Phone_init_value _ _ Hp) as ->. split; [reflexivity|].
    apply Phone_init_iff in Hp. tauto.
  - right. destruct (Phone_init_raises value) as (m & Hm).
    + intros Hv. apply Phone_init_iff in Hv. congruence.
    + rewrite Hp in Hm. injection Hm as ->. eauto.
Qed.

Lemma Birthday_init_safe today value : safe (Birthday.init today value).
Proof.
  unfold Birthday.init. destruct (datetime.strptime value); [|exact I].
  destruct (datetime.gt _ _); exact I.
Qed.

Lemma Email_init_safe value : safe (Email.init value).
Proof.
  unfold Email.init. destruct (negb _); exact I.
Qed.

Lemma new_safe y m d : safe (datetime.new y m d).
Proof.
  unfold datetime.new.
  destruct (_ || _); [exact I|]. destruct (_ || _); [exact I|].
  destruct (_ || _); exact I.
Qed.

Lemma Record_days_to_birthday_safe today self : safe (Record_.days_to_birthday today self).
Proof.
  unfold Record_.days_to_birthday, datetime.replace_year.
  destruct (Record_.birthday self) as [b|]; [|exact I].
  pose proof (new_safe (datetime.year today) (datetime.month (Birthday.value b))
                (datetime.day (Birthday.value b))) as H1.
  destruct (datetime.new (datetime.year today) _ _) as [this|e]; [|exact H1].
  cbn [bind]. destruct (_ >? 0); [exact I|].
  pose proof (new_safe (datetime.year today + 1) (datetime.month this)
                (datetime.day this)) as H2.
  destruct (datetime.new (datetime.year today + 1) _ _); [exact I | exact H2].
Qed.

Lemma remove_phone_of_phone self value :
  Phone.init value = Ret (Phone.make value) ->
  exists self' msg, Record_.remove_phone self value = Ret (self', msg)
    /\ Record_.name self' = Record_.name self.
Proof.
  intros Hv. unfold Record_.remove_phone. rewrite Hv. cbn [bind].
  destruct (Record_.find_phone _ _) as [[[before ph] after]|]; eauto.
Qed.

Lemma change_returns args book : exists msg, fst (change args book) = Ret msg.
Proof.
  apply error_handler_safe.
  destruct args as [|a0 [|a1 [|a2 more]]]; try exact I; unfold item; simpl.
  - destruct (Phone_init_cases a1) as [[-> _] | (m & ->)]; exact I.
  - destruct (Phone_init_cases a1) as [[-> _] | (m & ->)]; [|exact I]. simpl.
    destruct (Phone_init_cases a2) as [[-> Hn] | (m & ->)]; [|exact I]. simpl.
    rewrite Hn. exact I.
Qed.

Lemma phone_returns args book : exists msg, fst (phone args book) = Ret msg.
Proof.
  apply error_handler_safe. unfold pure. cbn [fst]. unfold item.
  destruct args as [|a0 more]; [exact I|]. simpl.
  unfold AddressBook.show_one_record. destruct (AddressBook.get book a0); exact I.
Qed.

Lemma days_to_birthday_returns today args book :
  exists msg, fst (days_to_birthday today args book) = Ret msg.
Proof.
  apply error_handler_safe. unfold pure. cbn [fst]. unfold item.
  destruct args as [|a0 more]; [exact I|]. simpl.
  destruct (AddressBook.get book a0) as [record|]; [|exact I].
  destruct (Record_.birthday record); [apply Record_days_to_birthday_safe | exact I].
Qed.

Lemma delete_contact_returns args book :
  exists msg, fst (delete_contact args book) = Ret msg.
Proof.
  apply error_handler_safe. unfold item.
  destruct args as [|[|c a0] more]; exact I.
Qed.

Lemma delete_phone_returns args book : exists msg, fst (delete_phone args book) = Ret msg.
Proof.
  apply error_handler_safe.
  destruct args as [|a0 [|a1 more]]; try exact I; unfold item; simpl.
  destruct (Phone_init_cases a1) as [[Hp _] | (m & ->)]; [|exact I]. rewrite Hp. simpl.
  destruct (AddressBook.get book a0) as [record|]; [|exact I].
  destruct (remove_phone_of_phone record a1 Hp) as (r' & msg & -> & _). exact I.
Qed.

Lemma add_birthday_returns today args book :
  exists msg, fst (add_birthday today args book) = Ret msg.
Proof.
  apply error_handler_safe.
  destruct args as [|a0 [|a1 more]]; try exact I; unfold item; simpl.
  pose proof (Birthday_init_safe today a1) as Hs.
  destruct (Birthday.init today a1); [|exact Hs]. simpl.
  destruct (AddressBook.get book a0); exact I.
Qed.

Lemma add_email_returns args book : exists msg, fst (add_email args book) = Ret msg.
Proof.
  apply error_handler_safe.
  destruct args as [|a0 [|a1 more]]; try exact I; unfold item; simpl.
  pose proof (Email_init_safe a1) as Hs.
  destruct (Email.init a1); [|exact Hs]. simpl.
  destruct (AddressBook.get book a0); exact I.
Qed.

(** X17.  No decorated handler that works on the book ever raises: whatever the
    argument tuple and the book, the caller gets a string.  In particular the
    bare [raise ValueError] of [change] is never reached. *)
Theorem decorated_handlers_always_answer today h args book :
  In h (decorated_handlers today) ->
  exists msg, fst (h args book) = Ret msg.
Proof.
  intros Hin. simpl in Hin.
  destruct Hin as [<-|[<-|[<-|[<-|[<-|[<-|[<-|[<-|[<-|[]]]]]]]]]].
  - eexists. reflexivity.
  - apply change_returns.
  - apply phone_returns.
  - apply days_to_birthday_returns.
  - unfold show_all, error_handler, pure. destruct (_ >? 0); eexists; reflexivity.
  - apply delete_contact_returns.
  - apply delete_phone_returns.
  - apply add_birthday_returns.
  - apply add_email_returns.
Qed.

Lemma decorated_handlers_always_answer_witness :
  exists msg, fst (change ["ann"; "38011"] ann_book) = Ret msg.
Proof.
  apply (decorated_handlers_always_answer first_of_june_2023).
  simpl. right. left. reflexivity.
Defined.

Lemma change_keeps_book args book : book_ok book -> book_ok (snd (change args book)).
Proof.
  intros Hok. unfold change. rewrite error_handler_book.
  destruct (_ <- item args 0 ;; _) as [[[name old_ph] new_ph]|e]; [|exact Hok].
  cbn [snd]. apply book_ok_change_record, Hok.
Qed.

Lemma delete_contact_keeps_book args book :
  book_ok book -> book_ok (snd (delete_contact args book)).
Proof.
  intros Hok. unfold delete_contact. rewrite error_handler_book.
  destruct (item args 0) as [a0|e]; [|exact Hok].
  destruct a0; [exact Hok|]. cbn [snd]. apply book_ok_pop, Hok.
Qed.

Lemma delete_phone_keeps_book args book :
  book_ok book -> book_ok (snd (delete_phone args book)).
Proof.
  intros Hok. unfold delete_phone. rewrite error_handler_book.
  destruct (_ <- item args 0 ;; _) as [[name ph]|e] eqn:Hargs; [|exact Hok].
  destruct (AddressBook.get book (Name.value name)) as [record|] eqn:Hg; [|exact Hok].
  unfold Record_.remove_phone.
  destruct (Phone.init (Phone.value ph)) as [ph'|e]; [|exact Hok]. cbn [bind].
  pose proof (book_ok_get _ _ _ Hok Hg) as Hname.
  destruct (Record_.find_phone _ _) as [[[before found] after]|]; cbn [snd];
    apply book_ok_set; auto.
Qed.

Lemma add_birthday_keeps_book today args book :
  book_ok book -> book_ok (snd (add_birthday today args book)).
Proof.
  intros Hok. unfold add_birthday. rewrite error_handler_book.
  destruct (_ <- item args 0 ;; _) as [[name b]|e]; [|exact Hok].
  destruct (AddressBook.get book (Name.value name)) as [record|] eqn:Hg; [|exact Hok].
  cbn [snd]. apply book_ok_set; [exact Hok|]. exact (book_ok_get _ _ _ Hok Hg).
Qed.

Lemma add_email_keeps_book args book :
  book_ok book -> book_ok (snd (add_email args book)).
Proof.
  intros Hok. unfold add_email. rewrite error_handler_book.
  destruct (_ <- item args 0 ;; _) as [[name b]|e]; [|exact Hok].
  destruct (AddressBook.get book (Name.value name)) as [record|] eqn:Hg; [|exact Hok].
  cbn [snd]. apply book_ok_set; [exact Hok|]. exact (book_ok_get _ _ _ Hok Hg).
Qed.

(** X18.  Every decorated handler that works on the book leaves it a dict of
    records stored under their own names, no name twice, whatever the
    arguments and whether it succeeds or reports an error. *)
Theorem decorated_handlers_keep_book today h args book :
  In h (decorated_handlers today) ->
  book_ok book ->
  book_ok (snd (h args book)).
Proof.
  intros Hin Hok. simpl in Hin.
  destruct Hin as [<-|[<-|[<-|[<-|[<-|[<-|[<-|[<-|[<-|[]]]]]]]]]].
  - exact Hok.
  - apply change_keeps_book, Hok.
  - unfold phone. rewrite error_handler_book. exact Hok.
  - unfold days_to_birthday. rewrite error_handler_book. exact Hok.
  - unfold show_all. rewrite error_handler_book. exact Hok.
  - apply delete_contact_keeps_book, Hok.
  - apply delete_phone_keeps_book, Hok.
  - apply add_birthday_keeps_book, Hok.
  - apply add_email_keeps_book, Hok.
Qed.

Lemma decorated_handlers_keep_book_witness :
  book_ok (snd (delete_phone ["ann"; "380111111111"] eve_book)).
Proof.
  apply (decorated_handlers_keep_book first_of_june_2023).
  - simpl. do 6 right. left. reflexivity.
  - split; repeat constructor; simpl; intuition discriminate.
Defined.

(** X19.  [delete_contact] confirms the deletion of any name that is not empty,
    whether the book holds it or not; afterwards, in a book without a repeated
    key, the name is not found and the other names are not affected.  With
    the empty name, which is what the parser passes when nothing follows the
    keyword, the answer is the message about the missing name and the book is
    left as it is. *)
Theorem delete_contact_forgets_the_name name more book :
  NoDup (map fst book) ->
  name <> "" ->
  fst (delete_contact (name :: more) book)
  = Ret (name ++ " was deleted from your contact list")
  /\ AddressBook.get (snd (delete_contact (name :: more) book)) name = None
  /\ (forall key, key <> name ->
        AddressBook.get (snd (delete_contact (name :: more) book)) key
        = AddressBook.get book key)
  /\ delete_contact ("" :: more) book
     = (Ret "You didn't provide contact name or phone number", book).
Proof.
  intros Hnd Hname.
  assert (E : delete_contact (name :: more) book
              = (Ret (name ++ " was deleted from your contact list"),
                 AddressBook.pop book name)).
  { destruct name; [congruence | reflexivity]. }
  rewrite E. cbn [fst snd].
  split; [reflexivity|]. split; [apply get_none_not_in, pop_removes, Hnd|].
  split; [|reflexivity].
  intros key Hne. apply get_pop_other, Hne.
Qed.

Lemma delete_contact_forgets_the_name_witness :
  fst (delete_contact ["zed"] eve_book) = Ret ("zed" ++ " was deleted from your contact list")
  /\ AddressBook.get (snd (delete_contact ["zed"] eve_book)) "zed" = None
  /\ (forall key, key <> "zed" ->
        AddressBook.get (snd (delete_contact ["zed"] eve_book)) key
        = AddressBook.get eve_book key)
  /\ delete_contact [""] eve_book
     = (Ret "You didn't provide contact name or phone number", eve_book).
Proof.
  apply (delete_contact_forgets_the_name "zed" [] eve_book).
  - repeat constructor; simpl; intuition discriminate.
  - discriminate.
Defined.

(** X20.  For a contact of the book and a text that is a phone number,
    [delete_phone] always answers that the phone was deleted.  When the
    contact holds the number, its first occurrence is taken out; when it does
    not, the book is left as it was and the answer is the same. *)
Theorem delete_phone_always_confirms name text more book record :
  Phone.init text = Ret (Phone.make text) ->
  AddressBook.get book name = Some record ->
  fst (delete_phone (name :: text :: more) book)
  = Ret ("Phone " ++ text ++ " was deleted from " ++ name ++ " ")
  /\ (Forall (fun q => Phone.value q <> text) (Record_.phones record) ->
      snd (delete_phone (name :: text :: more) book) = book)
  /\ (forall before ph after,
        Record_.phones record = (before ++ ph :: after)%list ->
        Phone.value ph = text ->
        Forall (fun q => Phone.value q <> text) before ->
        AddressBook.get (snd (delete_phone (name :: text :: more) book)) name
        = Some (Record_.set_phones record (before ++ after)%list)).
Proof.
  intros Hp Hg. unfold delete_phone, error_handler, item. simpl.
  rewrite Hp. simpl. rewrite Hg.
  unfold Record_.remove_phone. rewrite Hp. cbn [bind Phone.value].
  split; [|split].
  - destruct (Record_.find_phone text (Record_.phones record)) as [[[b f] a]|]; reflexivity.
  - intros Hnone. rewrite (find_phone_none _ _ Hnone). cbn [snd].
    apply AddressBook_set_get, Hg.
  - intros before ph after Hphones Hv Hb.
    rewrite Hphones, (find_phone_first _ _ _ _ Hv Hb). cbn [snd].
    apply get_set_same.
Qed.

Lemma delete_phone_always_confirms_witness :
  fst (delete_phone ["ann"; "380999999999"] ann_book)
  = Ret ("Phone " ++ "380999999999" ++ " was deleted from " ++ "ann" ++ " ")
  /\ (Forall (fun q => Phone.value q <> "380999999999") (Record_.phones ann) ->
      snd (delete_phone ["ann"; "380999999999"] ann_book) = ann_book)
  /\ (forall before ph after,
        Record_.phones ann = (before ++ ph :: after)%list ->
        Phone.value ph = "380999999999" ->
        Forall (fun q => Phone.value q <> "380999999999") before ->
        AddressBook.get (snd (delete_phone ["ann"; "380999999999"] ann_book)) "ann"
        = Some (Record_.set_phones ann (before ++ after)%list)).
Proof.
  apply (delete_phone_always_confirms "ann" "380999999999" [] ann_book ann);
    reflexivity.
Defined.

(** X21.  For a calendar date not later than today, written "DD-MM-YYYY",
    [add_birthday] sets the birthday of a contact of the book and touches
    nothing else of it; for a name the book does not hold it says so and
    leaves the book as it was. *)
Theorem add_birthday_sets_the_date today name x more book :
  is_date x ->
  datetime.gt x today = false ->
  (forall rec,
     AddressBook.get book name = Some rec ->
     add_birthday today (name :: DD_MM_YYYY x :: more) book
     = (Ret ("The birthday for " ++ name ++ " was added"),
        AddressBook.set book name
          (Record_.make (Record_.name rec) (Record_.phones rec)
             (Some (Birthday.make x)) (Record_.email rec))))
  /\ (AddressBook.get book name = None ->
      add_birthday today (name :: DD_MM_YYYY x :: more) book
      = (Ret (name ++ " is not in your contact list"), book)).
Proof.
  intros Hx Hle.
  assert (Hb : Birthday.init today (DD_MM_YYYY x) = Ret (Birthday.make x)).
  { unfold Birthday.init. rewrite (strptime_DD_MM_YYYY x Hx), Hle. reflexivity. }
  unfold add_birthday, error_handler, item.
  cbn [nth_error bind]. rewrite Hb. cbn [bind Name.value].
  split.
  - intros rec ->. reflexivity.
  - intros ->. reflexivity.
Qed.

Lemma add_birthday_sets_the_date_witness :
  (forall rec,
     AddressBook.get ann_book "ann" = Some rec ->
     add_birthday first_of_june_2023 ["ann"; "29-02-2020"] ann_book
     = (Ret ("The birthday for " ++ "ann" ++ " was added"),
        AddressBook.set ann_book "ann"
          (Record_.make (Record_.name rec) (Record_.phones rec)
             (Some (Birthday.make leap_day)) (Record_.email rec))))
  /\ (AddressBook.get ann_book "ann" = None ->
      add_birthday first_of_june_2023 ["ann"; "29-02-2020"] ann_book
      = (Ret ("ann" ++ " is not in your contact list"), ann_book)).
Proof.
  apply (add_birthday_sets_the_date first_of_june_2023 "ann" leap_day [] ann_book).
  - unfold is_date. vm_compute. repeat split; intros H; discriminate H.
  - reflexivity.
Defined.

(** X22.  [add_email] checks the address before it looks the contact up: with a
    text [Email] refuses, the answer is the message about the format and the
    book is left as it was, whether the name is known or not; with a text
    [Email] takes, the email of a contact of the book is set and nothing else
    of it is touched. *)
Theorem add_email_checks_the_address_first name text more book :
  (Email.init text = Raise (ValueError [Email.wrong_format]) ->
   add_email (name :: text :: more) book = (Ret Email.wrong_format, book))
  /\ (forall rec,
        Email.init text = Ret (Email.make text) ->
        AddressBook.get book name = Some rec ->
        add_email (name :: text :: more) book
        = (Ret ("Email for " ++ name ++ " was added"),
           AddressBook.set book name
             (Record_.make (Record_.name rec) (Record_.phones rec)
                (Record_.birthday rec) (Some (Email.make text))))).
Proof.
  unfold add_email, error_handler, item. cbn [nth_error bind]. split.
  - intros ->. reflexivity.
  - intros rec -> Hg. cbn [bind Name.value]. rewrite Hg. reflexivity.
Qed.

Lemma add_email_checks_the_address_first_witness :
  add_email ["zed"; "no address"] ann_book = (Ret Email.wrong_format, ann_book).
Proof.
  apply (proj1 (add_email_checks_the_address_first "zed" "no address" [] ann_book)).
  reflexivity.
Defined.

(** * Properties of [add_phone] *)

Lemma set_absent (book : AddressBook.t) key v :
  AddressBook.get book key = None ->
  AddressBook.set book key v = (book ++ [(key, v)])%list.
Proof.
  induction book as [|[k w] book IH]; simpl; [reflexivity|].
  destruct (String.eqb k key); [discriminate|].
  intros H. rewrite (IH H). reflexivity.
Qed.

Lemma store_phone_valid book name rec text :
  Phone.init text = Ret (Phone.make text) ->
  store_phone book name rec (Phone.make text)
  = (Ret (you_just_added name text),
     match rec with
     | Some r => AddressBook.set book name (fst (Record_.add_phone r (Phone.make text)))
     | None =>
         AddressBook.add_record book (Record_.init (Name.make name) (Some (Phone.make text)))
     end).
Proof.
  intros Hp. apply Phone_init_iff in Hp. destruct Hp as (_ & _ & Hn).
  unfold store_phone. cbn [Phone.value]. rewrite Hn. reflexivity.
Qed.

(** X23.  For a name the book does not hold, [add_phone] asks nothing: it puts at
    the end of the book a record of that name with the one phone, no
    birthday and no email, and leaves the console as it was. *)
Theorem add_phone_new_contact name text more book io :
  Phone.init text = Ret (Phone.make text) ->
  AddressBook.get book name = None ->
  add_phone (name :: text :: more) (book, io)
  = (Ret (you_just_added name text),
     ((book ++ [(name, Record_.make (Name.make name) [Phone.make text] None None)])%list,
      io)).
Proof.
  intros Hp Hg. unfold add_phone, error_handler_on, item.
  cbn [nth_error bind]. rewrite Hp. cbn [bind]. rewrite Hg.
  rewrite (store_phone_valid _ _ _ _ Hp).
  unfold AddressBook.add_record. cbn [Record_.init Record_.name Name.value].
  rewrite (set_absent _ _ _ Hg). reflexivity.
Qed.

Lemma add_phone_new_contact_witness :
  add_phone ["bob"; "380555555555"] (ann_book, quiet)
  = (Ret (you_just_added "bob" "380555555555"),
     ((ann_book
       ++ [("bob", Record_.make (Name.make "bob") [Phone.make "380555555555"] None None)])%list,
      quiet)).
Proof.
  apply add_phone_new_contact; reflexivity.
Defined.

Lemma ask_again prompt line rest seen :
  is_answer line = false ->
  ask prompt (line :: rest) seen = ask prompt rest (seen ++ [prompt; please_type]).
Proof.
  unfold is_answer. intros H.
  apply orb_false_elim in H. destruct H as [H H3].
  apply orb_false_elim in H. destruct H as [H1 H2].
  cbn [ask]. rewrite H1, H2, H3. reflexivity.
Qed.

(** X24.  When the name is taken and the line read is not "1", "2" or "3",
    [add_phone] writes the request to type one of them and goes on as it
    would have without that line: the question is asked again and the next
    line is read. *)
Theorem add_phone_asks_again name text more book rec line rest seen :
  Phone.init text = Ret (Phone.make text) ->
  AddressBook.get book name = Some rec ->
  is_answer line = false ->
  add_phone (name :: text :: more) (book, mkconsole (line :: rest) seen)
  = add_phone (name :: text :: more)
      (book, mkconsole rest (seen ++ [already_exist name; please_type])).
Proof.
  intros Hp Hg Hline. unfold add_phone, error_handler_on, item.
  cbn [nth_error bind]. rewrite Hp. cbn [bind]. rewrite Hg.
  cbn [pending written]. rewrite (ask_again _ _ _ _ Hline). reflexivity.
Qed.

Lemma add_phone_asks_again_witness :
  add_phone ["ann"; "380555555555"] (ann_book, mkconsole ["yes"; "3"] [])
  = add_phone ["ann"; "380555555555"]
      (ann_book, mkconsole ["3"] ([] ++ [already_exist "ann"; please_type])).
Proof.
  apply (add_phone_asks_again "ann" "380555555555" [] ann_book ann); reflexivity.
Defined.

(** X25.  When the name is taken and the answer is "3", the phone is appended to
    the phones of the contact; its name, birthday and email stay, and so does
    its place in the book. *)
Theorem add_phone_answer_3_appends name text more book rec rest seen :
  Phone.init text = Ret (Phone.make text) ->
  AddressBook.get book name = Some rec ->
  add_phone (name :: text :: more) (book, mkconsole ("3" :: rest) seen)
  = (Ret (you_just_added name text),
     (AddressBook.set book name
        (Record_.make (Record_.name rec) (Record_.phones rec ++ [Phone.make text])
           (Record_.birthday rec) (Record_.email rec)),
      mkconsole rest (seen ++ [already_exist name]))).
Proof.
  intros Hp Hg. unfold add_phone, error_handler_on, item.
  cbn [nth_error bind]. rewrite Hp. cbn [bind]. rewrite Hg.
  cbn [pending written ask String.eqb Ascii.eqb Bool.eqb].
  rewrite (store_phone_valid _ _ _ _ Hp). reflexivity.
Qed.

Lemma add_phone_answer_3_appends_witness :
  add_phone ["eve"; "380555555555"] (eve_book, mkconsole ["3"] [])
  = (Ret (you_just_added "eve" "380555555555"),
     (AddressBook.set eve_book "eve"
        (Record_.make (Record_.name eve) (Record_.phones eve ++ [Phone.make "380555555555"])
           (Record_.birthday eve) (Record_.email eve)),
      mkconsole [] ([] ++ [already_exist "eve"]))).
Proof.
  apply (add_phone_answer_3_appends "eve" "380555555555" [] eve_book eve); reflexivity.
Defined.

(** X26.  When the name is taken and the answer is "1", the contact is replaced by
    a new one that has the new phone only: the old phones, the birthday and
    the email are gone, and the contact moves to the end of the book. *)
Theorem add_phone_answer_1_rewrites name text more book rec rest seen :
  book_ok book ->
  Phone.init text = Ret (Phone.make text) ->
  AddressBook.get book name = Some rec ->
  add_phone (name :: text :: more) (book, mkconsole ("1" :: rest) seen)
  = (Ret (you_just_added name text),
     ((AddressBook.pop book name
       ++ [(name, Record_.make (Name.make name) [Phone.make text] None None)])%list,
      mkconsole rest (seen ++ [already_exist name]))).
Proof.
  intros Hok Hp Hg. unfold add_phone, error_handler_on, item.
  cbn [nth_error bind]. rewrite Hp. cbn [bind]. rewrite Hg.
  cbn [pending written ask String.eqb Ascii.eqb Bool.eqb].
  unfold AddressBook.remove_record. rewrite (book_ok_get _ _ _ Hok Hg).
  assert (Hgone : AddressBook.get (AddressBook.pop book name) name = None).
  { apply get_none_not_in, pop_removes. exact (proj1 Hok). }
  rewrite Hgone, (store_phone_valid _ _ _ _ Hp).
  unfold AddressBook.add_record. cbn [Record_.init Record_.name Name.value].
  rewrite (set_absent _ _ _ Hgone). reflexivity.
Qed.

Lemma add_phone_answer_1_rewrites_witness :
  add_phone ["eve"; "380555555555"] (eve_book, mkconsole ["1"] [])
  = (Ret (you_just_added "eve" "380555555555"),
     ((AddressBook.pop eve_book "eve"
       ++ [("eve", Record_.make (Name.make "eve") [Phone.make "380555555555"] None None)])%list,
      mkconsole [] ([] ++ [already_exist "eve"]))).
Proof.
  apply (add_phone_answer_1_rewrites "eve" "380555555555" [] eve_book eve).
  - split; repeat constructor; simpl; intuition discriminate.
  - reflexivity.
  - reflexivity.
Defined.

Lemma ask_cases prompt : forall lines seen,
  (exists a io, ask prompt lines seen = (Ret a, io))
  \/ (exists io, ask prompt lines seen = (Raise EOFError, io)
                 /\ console_pending_empty io
                 /\ forallb (fun line => negb (is_answer line)) lines = true).
Proof.
  induction lines as [|line rest IH]; intros seen.
  - right. eexists. split; [reflexivity|]. split; reflexivity.
  - cbn [ask forallb]. unfold is_answer.
    destruct (String.eqb line "2"); [left; eauto|].
    destruct (String.eqb line "1"); [left; eauto|].
    destruct (String.eqb line "3"); [left; eauto|].
    simpl. apply IH.
Qed.


(** X27.  [add_phone] lets one exception reach its caller and no other:
    [EOFError], raised by [input] when the arguments are a name and a valid
    number, the name is taken, and the console has no line "1", "2" or "3" to
    give; all the lines were then read and the book is left as it was. *)
Theorem add_phone_raises_EOFError_only args book io :
  (exists msg, fst (add_phone args (book, io)) = Ret msg)
  \/ (fst (add_phone args (book, io)) = Raise EOFError
      /\ (exists name text more rec,
            args = name :: text :: more
            /\ Phone.init text = Ret (Phone.make text)
            /\ AddressBook.get book name = Some rec)
      /\ forallb (fun line => negb (is_answer line)) (pending io) = true
      /\ pending (snd (snd (add_phone args (book, io)))) = []
      /\ fst (snd (add_phone args (book, io))) = book).
Proof.
  unfold add_phone, error_handler_on, item.
  destruct args as [|a0 [|a1 more]];
    [left; eexists; reflexivity | left; eexists; reflexivity |].
  cbn [nth_error bind].
  destruct (Phone_init_cases a1) as [[Hp Hn] | (m & ->)];
    [|left; eexists; reflexivity].
  rewrite Hp. cbn [bind].
  destruct (AddressBook.get book a0) as [rec|] eqn:Hget.
  - destruct (ask_cases (already_exist a0) (pending io) (written io))
      as [(a & io' & ->) | (io' & -> & Hempty & Hall)].
    + left. destruct a; cbv zeta; rewrite (store_phone_valid _ _ _ _ Hp);
        eexists; reflexivity.
    + right. cbn [fst snd]. split; [reflexivity|].
      split; [exists a0, a1, more, rec; auto|]. auto.
  - left. rewrite (store_phone_valid _ _ _ _ Hp). eexists; reflexivity.
Qed.

(** The other way round: a name that is taken, a valid number and no answer
    on the console make [add_phone] raise [EOFError]. *)
Lemma ask_without_answer prompt : forall lines seen,
  forallb (fun line => negb (is_answer line)) lines = true ->
  fst (ask prompt lines seen) = Raise EOFError.
Proof.
  induction lines as [|line rest IH]; intros seen H; [reflexivity|].
  cbn [forallb] in H. apply andb_prop in H. destruct H as [Hl Hrest].
  unfold is_answer in Hl. apply negb_true_iff in Hl.
  apply orb_false_iff in Hl. destruct Hl as [Hl H3].
  apply orb_false_iff in Hl. destruct Hl as [H1 H2].
  cbn [ask]. rewrite H1, H2, H3. apply IH, Hrest.
Qed.

Lemma add_phone_without_answer name text more rec book io :
  Phone.init text = Ret (Phone.make text) ->
  AddressBook.get book name = Some rec ->
  forallb (fun line => negb (is_answer line)) (pending io) = true ->
  fst (add_phone (name :: text :: more) (book, io)) = Raise EOFError.
Proof.
  intros Hp Hget Hall. unfold add_phone, error_handler_on, item.
  cbn [nth_error bind]. rewrite Hp. cbn [bind]. rewrite Hget.
  pose proof (ask_without_answer (already_exist name) _ (written io) Hall) as Hask.
  destruct (ask (already_exist name) (pending io) (written io)) as [r io'].
  cbn [fst] in Hask. subst r. reflexivity.
Qed.

Lemma store_phone_keeps_book book name rec ph :
  book_ok book ->
  (forall r, rec = Some r -> Name.value (Record_.name r) = name) ->
  book_ok (snd (store_phone book name rec ph)).
Proof.
  intros Hok Hrec. unfold store_phone.
  destruct (negb _); [exact Hok|]. cbn [snd].
  destruct rec as [r|].
  - apply book_ok_set; [exact Hok|]. exact (Hrec r eq_refl).
  - apply book_ok_set; [exact Hok | reflexivity].
Qed.

(** X28.  Whatever the arguments, the answers read and the outcome, [add_phone]
    leaves the book a dict of records stored under their own names, no name
    twice. *)
Theorem add_phone_keeps_book args book io :
  book_ok book ->
  book_ok (fst (snd (add_phone args (book, io)))).
Proof.
  intros Hok.
  assert (Hget : forall b n, book_ok b ->
            forall r, AddressBook.get b n = Some r -> Name.value (Record_.name r) = n).
  { intros b n Hb r Hr. exact (book_ok_get _ _ _ Hb Hr). }
  unfold add_phone.
  match goal with
  | |- book_ok (fst (snd (error_handler_on ?f args (book, io)))) =>
      assert (Hbody : book_ok (fst (snd (f args (book, io)))))
  end.
  { cbv beta iota.
    destruct (_ <- item args 0 ;; _) as [[name ph]|e]; [|exact Hok].
    destruct (AddressBook.get book name) as [rec|] eqn:Hg.
    - destruct (ask (already_exist name) (pending io) (written io)) as [[a|e] io'];
        [|exact Hok].
      destruct a; cbv zeta.
      + pose proof (store_phone_keeps_book
                      (AddressBook.remove_record book rec) name
                      (AddressBook.get (AddressBook.remove_record book rec) name) ph
                      (book_ok_pop _ _ Hok)
                      (Hget _ _ (book_ok_pop _ _ Hok))) as H.
        destruct (store_phone _ _ _ _); exact H.
      + pose proof (store_phone_keeps_book book (name ++ "(1)")
                      (AddressBook.get book (name ++ "(1)")) ph Hok
                      (Hget _ _ Hok)) as H.
        destruct (store_phone _ _ _ _); exact H.
      + pose proof (store_phone_keeps_book book name (Some rec) ph Hok) as H.
        destruct (store_phone _ _ _ _); apply H.
        intros r0 Hr0. injection Hr0 as <-. exact (Hget _ _ Hok _ Hg).
    - pose proof (store_phone_keeps_book book name None ph Hok) as H.
      destruct (store_phone _ _ _ _); apply H. discriminate. }
  unfold error_handler_on.
  match goal with
  | H : book_ok (fst (snd ?x)) |- _ => destruct x as [[r|e] st]
  end; [exact Hbody|].
  destruct e as [|[|m eargs]| | |]; exact Hbody.
Qed.

Lemma add_phone_keeps_book_witness :
  book_ok (fst (snd (add_phone ["ann"; "380555555555"] (ann_book, mkconsole ["2"] [])))).
Proof.
  apply add_phone_keeps_book.
  split; repeat constructor; simpl; intuition discriminate.
Defined.

(** On the book alone the decorator with a state of any type is the
    decorator of the handlers. *)
Lemma error_handler_on_book (func : handler) : error_handler_on func = error_handler func.
Proof.
  reflexivity.
Qed.

Lemma add_phone_absent name text more book io :
  Phone.init text = Ret (Phone.make text) ->
  AddressBook.get book name = None ->
  add_phone (name :: text :: more) (book, io)
  = (Ret (you_just_added name text),
     (AddressBook.set book name
        (Record_.make (Name.make name) [Phone.make text] None None), io)).
Proof.
  intros Hp Hg. unfold add_phone, error_handler_on, item.
  cbn [nth_error bind]. rewrite Hp. cbn [bind]. rewrite Hg.
  rewrite (store_phone_valid _ _ _ _ Hp). reflexivity.
Qed.

(** X29.  A contact added under a new name is what [phone] then shows for that
    name: the name, no birthday, the one phone and no email. *)
Theorem added_contact_is_shown name text more book io :
  Phone.init text = Ret (Phone.make text) ->
  AddressBook.get book name = None ->
  fst (phone [name] (fst (snd (add_phone (name :: text :: more) (book, io)))))
  = Ret ("Name: " ++ name ++ "; Birthday: None; Phone: " ++ text ++ "; Email: None").
Proof.
  intros Hp Hg. rewrite (add_phone_absent _ _ _ _ _ Hp Hg). cbn [fst snd].
  unfold phone, error_handler, pure, item. cbn [nth_error bind].
  unfold AddressBook.show_one_record. rewrite get_set_same. reflexivity.
Qed.

Lemma added_contact_is_shown_witness :
  fst (phone ["bob"]
         (fst (snd (add_phone ["bob"; "380555555555"] (ann_book, quiet)))))
  = Ret ("Name: " ++ "bob" ++ "; Birthday: None; Phone: " ++ "380555555555"
         ++ "; Email: None").
Proof.
  apply added_contact_is_shown; reflexivity.
Defined.

Lemma pop_last (book : AddressBook.t) key v :
  AddressBook.get book key = None ->
  AddressBook.pop (book ++ [(key, v)])%list key = book.
Proof.
  induction book as [|[k w] book IH]; simpl.
  - rewrite String.eqb_refl. reflexivity.
  - destruct (String.eqb k key); [discriminate|].
    intros H. rewrite (IH H). reflexivity.
Qed.

(** X30.  Adding a contact under a new name and deleting that name gives the book
    back as it was. *)
Theorem add_then_delete_contact name text more more' book io :
  Phone.init text = Ret (Phone.make text) ->
  AddressBook.get book name = None ->
  name <> "" ->
  snd (delete_contact (name :: more')
         (fst (snd (add_phone (name :: text :: more) (book, io)))))
  = book.
Proof.
  intros Hp Hg Hname. rewrite (add_phone_absent _ _ _ _ _ Hp Hg). cbn [fst snd].
  rewrite (set_absent _ _ _ Hg).
  unfold delete_contact. rewrite error_handler_book. unfold item. cbn [nth_error].
  destruct name as [|c name]; [congruence|].
  cbn [Name.value snd]. unfold AddressBook.remove_record.
  cbn [Record_.init Record_.name Name.value]. apply pop_last, Hg.
Qed.

Lemma add_then_delete_contact_witness :
  snd (delete_contact ["bob"]
         (fst (snd (add_phone ["bob"; "380555555555"] (ann_book, quiet)))))
  = ann_book.
Proof.
  apply add_then_delete_contact; [reflexivity | reflexivity | discriminate].
Defined.

(** * The handlers as [main] calls them *)






(** A word that is no number: [int] raises, and the decorator hands its
    message to the user. *)
Lemma show_list_of_a_word :
  show_list ["two"] ann_book
  = (Ret "invalid literal for int() with base 10: 'two'", ann_book).
Proof.
  reflexivity.
Qed.







